(** * SkillSwap: credit settlement, swap status updates and profile provisioning

    A shallow embedding of the database side of SkillSwap:

    - the tables [profiles], [swaps] and [transactions] of the initial schema
      migration, with the column types, defaults and constraints the
      procedures below depend on;
    - the stored procedure [handle_swap_completion] (credit transfer);
    - the row-level-security policy "Users can update their swaps", which is
      the only gate on a change of [swaps.status] outside that procedure;
    - the trigger function [handle_new_user], the insert into auth.users
      that fires it, and the profile insert issued by the client's [signUp];
    - the insert policy of [reviews], the update policy of [profiles], the
      tag list of SkillForm and [formatRelativeTime].

    PostgreSQL behaviour that the procedures rely on is written out:
    three-valued logic for comparisons with NULL, INTEGER arithmetic that
    raises "integer out of range", CHECK / NOT NULL / UNIQUE violations, and
    the roll-back of a PL/pgSQL block that has an EXCEPTION clause. *)

From Stdlib Require Import ZArith Lia Ascii String.
From stdpp Require Import base option list gmap strings fin_maps pretty.

Local Open Scope string_scope.
Local Open Scope list_scope.
Local Open Scope Z_scope.

(** ** Column types *)

(** UUID values (128 bit), used as primary keys. *)
Abbreviation uuid := N (only parsing).

(** TIMESTAMP WITH TIME ZONE, as a number of microseconds. *)
Abbreviation timestamptz := Z (only parsing).

(** INTEGER is a signed 32 bit integer; arithmetic outside the range raises
    an error instead of wrapping around. *)
Definition int4_min : Z := -2147483648.
Definition int4_max : Z := 2147483647.

Definition int4_range (z : Z) : bool := (int4_min <=? z) && (z <=? int4_max).

(** [swaps.status], restricted by its CHECK constraint to six values. *)
Inductive swap_status : Set :=
| pending | accepted | in_progress | completed | declined | cancelled.

(** [transactions.transaction_type], restricted by its CHECK constraint. *)
Inductive transaction_type : Set :=
| swap_payment | signup_bonus | referral_bonus | admin_adjustment.

#[global] Instance swap_status_eq_dec : EqDecision swap_status.
Proof. solve_decision. Defined.

#[global] Instance transaction_type_eq_dec : EqDecision transaction_type.
Proof. solve_decision. Defined.

(** ** Rows

    The primary key [id] of [profiles] and [swaps] is the key of the map that
    holds the table.  Columns that none of the modelled procedures reads or
    writes (username, bio, is_ngo_volunteer, location_*, scheduled_at,
    message, meeting_*, completion_notes) are left out.  A column declared
    without NOT NULL that a procedure reads, compares or computes with is an
    option, [None] being NULL: CHECK constraints pass on NULL, and the
    policies let a row's owner or a swap's participant write it.  The
    timestamps, which are only ever assigned, are kept as values. *)

Record Profile : Type := mkProfile {
  email : string;
  full_name : option string;
  avatar_url : option string;
  credits : option Z;
  skills_taught : option Z;
  skills_learned : option Z;
  average_rating : option Z;   (* DECIMAL(3,2), in hundredths *)
  total_reviews : option Z;
  created_at : timestamptz;
  updated_at : timestamptz
}.

Record Swap : Type := mkSwap {
  skill_id : uuid;
  teacher_id : uuid;
  learner_id : uuid;
  status : option swap_status;
  duration_hours : Z;
  total_credits : Z;
  swap_created_at : timestamptz;
  swap_updated_at : timestamptz
}.

(** A row of [transactions]; its [id] is [gen_random_uuid()] and is never
    read, so the table is the list of its rows in insertion order. *)
Record Transaction : Type := mkTransaction {
  from_user_id : option uuid;
  to_user_id : uuid;
  swap_id : option uuid;
  amount : Z;
  tx_type : transaction_type;
  description : option string;
  tx_created_at : timestamptz
}.

Record DB : Type := mkDB {
  profiles : gmap N Profile;
  swaps : gmap N Swap;
  transactions : list Transaction
}.

(** ** Assignments of an UPDATE ... SET *)

Definition set_credits (v : option Z) (p : Profile) : Profile :=
  mkProfile (email p) (full_name p) (avatar_url p) v (skills_taught p)
    (skills_learned p) (average_rating p) (total_reviews p) (created_at p)
    (updated_at p).

Definition set_skills_taught (v : option Z) (p : Profile) : Profile :=
  mkProfile (email p) (full_name p) (avatar_url p) (credits p) v
    (skills_learned p) (average_rating p) (total_reviews p) (created_at p)
    (updated_at p).

Definition set_skills_learned (v : option Z) (p : Profile) : Profile :=
  mkProfile (email p) (full_name p) (avatar_url p) (credits p)
    (skills_taught p) v (average_rating p) (total_reviews p) (created_at p)
    (updated_at p).

Definition set_names (fn av : option string) (now : timestamptz)
    (p : Profile) : Profile :=
  mkProfile (email p) fn av (credits p) (skills_taught p) (skills_learned p)
    (average_rating p) (total_reviews p) (created_at p) now.

Definition set_status (st : option swap_status) (s : Swap) : Swap :=
  mkSwap (skill_id s) (teacher_id s) (learner_id s) st (duration_hours s)
    (total_credits s) (swap_created_at s) (swap_updated_at s).

Definition set_swap_updated_at (now : timestamptz) (s : Swap) : Swap :=
  mkSwap (skill_id s) (teacher_id s) (learner_id s) (status s)
    (duration_hours s) (total_credits s) (swap_created_at s) now.

Definition with_profiles (ps : gmap N Profile) (db : DB) : DB :=
  mkDB ps (swaps db) (transactions db).

Definition with_swaps (ss : gmap N Swap) (db : DB) : DB :=
  mkDB (profiles db) ss (transactions db).

Definition with_transactions (ts : list Transaction) (db : DB) : DB :=
  mkDB (profiles db) (swaps db) ts.

(** ** SQL values and errors *)

(** Three-valued logic: [None] is NULL / unknown. *)
Definition sql_eq (a b : option N) : option bool :=
  match a, b with
  | Some x, Some y => Some (bool_decide (x = y))
  | _, _ => None
  end.

Definition sql_ne (a b : option N) : option bool := negb <$> sql_eq a b.

Definition sql_lt (a b : option Z) : option bool :=
  match a, b with
  | Some x, Some y => Some (x <? y)
  | _, _ => None
  end.

Definition sql_and (a b : option bool) : option bool :=
  match a, b with
  | Some false, _ | _, Some false => Some false
  | Some true, Some true => Some true
  | _, _ => None
  end.

Definition sql_or (a b : option bool) : option bool :=
  match a, b with
  | Some true, _ | _, Some true => Some true
  | Some false, Some false => Some false
  | _, _ => None
  end.

(** IF and WHERE take a branch (keep a row) only when the condition is
    true; unknown behaves like false. *)
Definition is_true (c : option bool) : bool :=
  match c with Some true => true | _ => false end.

Definition COALESCE {A} (a b : option A) : option A :=
  match a with Some x => Some x | None => b end.

(** Errors of the storage engine that the modelled statements can raise. *)
Inductive sql_error : Type :=
| numeric_value_out_of_range
| check_violation (relation constraint : string)
| not_null_violation (column relation : string)
| unique_violation (constraint : string)
| rls_violation (relation : string).

Definition dq : string := String (ascii_of_nat 34) EmptyString.
Definition quoted (s : string) : string := (dq ++ s ++ dq)%string.

(** The engine's message text for an error. *)
Definition SQLERRM (e : sql_error) : string :=
  (match e with
  | numeric_value_out_of_range => "integer out of range"
  | check_violation r c =>
      "new row for relation " ++ quoted r ++
      " violates check constraint " ++ quoted c
  | not_null_violation col r =>
      "null value in column " ++ quoted col ++ " of relation " ++ quoted r ++
      " violates not-null constraint"
  | unique_violation c =>
      "duplicate key value violates unique constraint " ++ quoted c
  | rls_violation r =>
      "new row violates row-level security policy for table " ++ quoted r
  end)%string.

(** A statement either completes with a value or raises. *)
Inductive outcome (A : Type) : Type :=
| ok (a : A)
| raise (e : sql_error).
Arguments ok {A} a.
Arguments raise {A} e.

Definition bind {A B} (m : outcome A) (k : A -> outcome B) : outcome B :=
  match m with
  | ok a => k a
  | raise e => raise e
  end.

Declare Scope sql_scope.
Delimit Scope sql_scope with sql.
Notation "x <-- m ;; k" := (bind m (fun x => k))
  (at level 100, m at next level, right associativity) : sql_scope.
Local Open Scope sql_scope.

Definition int4 (z : Z) : outcome Z :=
  if int4_range z then ok z else raise numeric_value_out_of_range.

(** INTEGER [+] and [-]: NULL when an operand is NULL, an error when the
    result leaves the range. *)
Definition sql_add (a b : option Z) : outcome (option Z) :=
  match a, b with
  | Some x, Some y => v <-- int4 (x + y) ;; ok (Some v)
  | _, _ => ok None
  end.

Definition sql_sub (a b : option Z) : outcome (option Z) :=
  match a, b with
  | Some x, Some y => v <-- int4 (x - y) ;; ok (Some v)
  | _, _ => ok None
  end.

(** [status != 'x'] on the nullable status column. *)
Definition sql_ne_status (a : option swap_status) (b : swap_status)
    : option bool :=
  (fun st => bool_decide (st <> b)) <$> a.

(** [status = 'x']. *)
Definition sql_eq_status (a : option swap_status) (b : swap_status)
    : option bool :=
  (fun st => bool_decide (st = b)) <$> a.

(** ** JSONB results *)

Inductive jsonb_value : Type :=
| jbool (b : bool)
| jtext (s : string).

Abbreviation jsonb := (list (string * jsonb_value)) (only parsing).

Definition jsonb_build_object (k1 : string) (v1 : jsonb_value)
    (k2 : string) (v2 : jsonb_value) : jsonb :=
  [(k1, v1); (k2, v2)].

Definition failure (msg : string) : jsonb :=
  jsonb_build_object "success" (jbool false) "error" (jtext msg).

Definition succeeded (j : jsonb) : bool :=
  match j with
  | (_, jbool b) :: _ => b
  | _ => false
  end.

(** ** Table [profiles]: constraints and UPDATE *)

(** CHECK (credits >= 0), verified on every new row version; a CHECK is
    violated only when its condition is false, so a NULL balance passes. *)
Definition profiles_check (p : Profile) : outcome Profile :=
  match credits p with
  | Some c =>
      if 0 <=? c then ok p
      else raise (check_violation "profiles" "profiles_credits_check")
  | None => ok p
  end.

(** UPDATE profiles SET ... WHERE id = k.  [assign] computes the new row
    (and may raise); no matching row means zero rows are updated. *)
Definition update_profiles (assign : Profile -> outcome Profile) (k : uuid)
    (db : DB) : outcome DB :=
  match profiles db !! k with
  | None => ok db
  | Some p =>
      p' <-- assign p ;;
      p'' <-- profiles_check p' ;;
      ok (with_profiles (<[k := p'']> (profiles db)) db)
  end.

(** UPDATE swaps SET ... WHERE id = k (no row-level security: used inside a
    SECURITY DEFINER function). *)
Definition update_swaps (assign : Swap -> Swap) (k : uuid) (db : DB) : DB :=
  with_swaps (alter assign k (swaps db)) db.

Definition insert_transaction (t : Transaction) (db : DB) : DB :=
  with_transactions (transactions db ++ [t]) db.

(** ** handle_swap_completion *)

(** The SET clauses of the three UPDATEs of [profiles], the SET clause of
    the UPDATE of [swaps] and the row logged in [transactions]. *)
Definition debit_learner (c : Z) (p : Profile) : outcome Profile :=
  v <-- sql_sub (credits p) (Some c) ;;
  ok (set_credits v p).

Definition credit_teacher (c : Z) (p : Profile) : outcome Profile :=
  v <-- sql_add (credits p) (Some c) ;;
  n <-- sql_add (skills_taught p) (Some 1) ;;
  ok (set_skills_taught n (set_credits v p)).

Definition count_learned (p : Profile) : outcome Profile :=
  n <-- sql_add (skills_learned p) (Some 1) ;;
  ok (set_skills_learned n p).

Definition complete_swap (now : timestamptz) (s : Swap) : Swap :=
  set_swap_updated_at now (set_status (Some completed) s).

Definition payment (swap_uuid : uuid) (swap_record : Swap)
    (now : timestamptz) : Transaction :=
  mkTransaction (Some (learner_id swap_record)) (teacher_id swap_record)
    (Some swap_uuid) (total_credits swap_record) swap_payment
    (Some "Payment for completed skill swap") now.

Definition swap_completed : jsonb :=
  jsonb_build_object "success" (jbool true)
    "message" (jtext "Swap completed successfully").

(** The inner BEGIN ... EXCEPTION block: the balance check and the five
    statements that follow it.  It returns the database it reached and the
    JSONB result, or raises.  The scalar subquery of the balance check is
    NULL when the learner has no row or a NULL balance; the comparison is
    then unknown and the block goes on. *)
Definition transfer_credits (swap_uuid : uuid) (swap_record : Swap)
    (now : timestamptz) (db : DB) : outcome (DB * jsonb) :=
  if is_true (sql_lt (profiles db !! learner_id swap_record ≫= credits)
                     (Some (total_credits swap_record)))
  then ok (db, failure "Insufficient credits")
  else
    db1 <-- update_profiles (debit_learner (total_credits swap_record))
              (learner_id swap_record) db ;;
    db2 <-- update_profiles (credit_teacher (total_credits swap_record))
              (teacher_id swap_record) db1 ;;
    db3 <-- update_profiles count_learned (learner_id swap_record) db2 ;;
    let db4 := update_swaps (complete_swap now) swap_uuid db3 in
    let db5 := insert_transaction (payment swap_uuid swap_record now) db4 in
    ok (db5, swap_completed).

(** [handle_swap_completion uid now swap_uuid db]: [uid] is [auth.uid()]
    (NULL for an unauthenticated caller), [now] is NOW().  Returns the
    database after the call and the JSONB result.  Each IF takes its
    branch only when its condition is true, not when it is unknown.  When
    the inner block raises, everything it changed is rolled back to the
    state at its BEGIN. *)
Definition handle_swap_completion (uid : option uuid) (now : timestamptz)
    (swap_uuid : uuid) (db : DB) : DB * jsonb :=
  match swaps db !! swap_uuid with
  | None => (db, failure "Swap not found")
  | Some swap_record =>
      if is_true (sql_ne_status (status swap_record) in_progress)
      then (db, failure "Swap is not in progress")
      else if is_true (sql_and
                         (sql_ne uid (Some (teacher_id swap_record)))
                         (sql_ne uid (Some (learner_id swap_record))))
      then (db, failure "Unauthorized")
      else
        match transfer_credits swap_uuid swap_record now db with
        | ok (db', result) => (db', result)
        | raise e => (db, failure (SQLERRM e))
        end
  end.

(** ** Row-level security on [swaps] *)

(** CREATE POLICY "Users can update their swaps" ON swaps FOR UPDATE
    USING (auth.uid() = teacher_id OR auth.uid() = learner_id). *)
Definition users_can_update_their_swaps (uid : option uuid) (s : Swap)
    : option bool :=
  sql_or (sql_eq uid (Some (teacher_id s))) (sql_eq uid (Some (learner_id s))).

(** UPDATE swaps SET status = st WHERE id = k, issued by [uid] through the
    table interface.  The policy is the only condition: a row it does not
    admit is skipped without an error, and since the policy has no WITH
    CHECK clause its USING expression is also applied to the new row.  The
    CHECK on status admits its six values and NULL. *)
Definition update_swap_status (uid : option uuid) (st : option swap_status)
    (k : uuid) (db : DB) : outcome DB :=
  match swaps db !! k with
  | None => ok db
  | Some s =>
      if is_true (users_can_update_their_swaps uid s) then
        if is_true (users_can_update_their_swaps uid (set_status st s))
        then ok (with_swaps (<[k := set_status st s]> (swaps db)) db)
        else raise (rls_violation "swaps")
      else ok db
  end.

(** ** handle_new_user and signUp *)

(** The row of [auth.users] a trigger invocation receives as NEW.  The
    metadata is a JSON object; [->>] reads a member as text and gives NULL
    when it is absent. *)
Record auth_user : Type := mkAuthUser {
  user_id : uuid;
  user_email : option string;
  raw_user_meta_data : gmap string string
}.

(** [split_part(s, delim, 1)] for a one-character delimiter: the text before
    its first occurrence, or all of [s]. *)
Fixpoint split_part (s : string) (delim : ascii) : string :=
  match s with
  | EmptyString => EmptyString
  | String c rest =>
      if bool_decide (c = delim) then EmptyString
      else String c (split_part rest delim)
  end.

(** UNIQUE (email): some row already holds this address. *)
Definition email_taken (e : string) (ps : gmap N Profile) : bool :=
  bool_decide (map_Exists (fun _ p => email p = e) ps).

(** A row inserted with only id, email, full_name and avatar_url given:
    the other columns take their DEFAULT. *)
Definition default_profile (e : string) (fn av : option string)
    (now : timestamptz) : Profile :=
  mkProfile e fn av (Some 100) (Some 0) (Some 0) (Some 0) (Some 0) now now.

Definition at_sign : ascii := ascii_of_nat 64.

(** EXCLUDED.full_name and EXCLUDED.avatar_url: the values proposed for
    insertion. *)
Definition excluded_full_name (NEW : auth_user) : option string :=
  COALESCE (raw_user_meta_data NEW !! "full_name")
    (COALESCE (raw_user_meta_data NEW !! "name")
       ((fun e => split_part e at_sign) <$> user_email NEW)).

Definition excluded_avatar_url (NEW : auth_user) : option string :=
  raw_user_meta_data NEW !! "avatar_url".

(** The trigger function, run AFTER INSERT ON auth.users FOR EACH ROW.
    It has no exception handler: an error aborts the statement. *)
Definition handle_new_user (NEW : auth_user) (now : timestamptz) (db : DB)
    : outcome DB :=
  match user_email NEW with
  | None => raise (not_null_violation "email" "profiles")
  | Some e =>
      match profiles db !! user_id NEW with
      | Some p =>
          ok (with_profiles
                (<[user_id NEW :=
                     set_names
                       (COALESCE (excluded_full_name NEW) (full_name p))
                       (COALESCE (excluded_avatar_url NEW) (avatar_url p))
                       now p]> (profiles db)) db)
      | None =>
          if email_taken e (profiles db)
          then raise (unique_violation "profiles_email_key")
          else
            ok (with_profiles
                  (<[user_id NEW :=
                       default_profile e (excluded_full_name NEW)
                         (excluded_avatar_url NEW) now]> (profiles db)) db)
      end
  end.

(** [supabase.from('profiles').insert({ id, email, full_name })] issued by
    [uid], under CREATE POLICY "Users can insert own profile" ... WITH CHECK
    (auth.uid() = id). *)
Definition insert_profile (uid : option uuid) (k : uuid) (e : string)
    (fn : option string) (now : timestamptz) (db : DB) : outcome DB :=
  if is_true (sql_eq uid (Some k)) then
    match profiles db !! k with
    | Some _ => raise (unique_violation "profiles_pkey")
    | None =>
        if email_taken e (profiles db)
        then raise (unique_violation "profiles_email_key")
        else ok (with_profiles
                   (<[k := default_profile e fn None now]> (profiles db)) db)
    end
  else raise (rls_violation "profiles").


(** ** Schema invariants and derived quantities *)

(** A nullable column holds NULL or a value its type and CHECK admit. *)
Definition nullable (admits : Z -> bool) (v : option Z) : bool :=
  match v with
  | Some z => admits z
  | None => true
  end.

(** What the column types and the CHECK constraint guarantee of a stored
    profile: each of the three INTEGER columns is NULL or in range, and a
    balance that is not NULL is not negative. *)
Definition profile_ok (p : Profile) : bool :=
  nullable (fun c => (0 <=? c) && (c <=? int4_max)) (credits p) &&
  nullable int4_range (skills_taught p) &&
  nullable int4_range (skills_learned p).

(** [teacher_id] and [learner_id] REFERENCES profiles(id) NOT NULL, and
    [total_credits] is an INTEGER. *)
Definition swap_ok (ps : gmap N Profile) (s : Swap) : bool :=
  bool_decide (is_Some (ps !! teacher_id s)) &&
  bool_decide (is_Some (ps !! learner_id s)) &&
  int4_range (total_credits s).

(** The constraints of the schema on the two tables. *)
Definition db_ok (db : DB) : Prop :=
  map_Forall (fun _ p => profile_ok p = true) (profiles db) /\
  map_Forall (fun _ s => swap_ok (profiles db) s = true) (swaps db).

#[global] Instance db_ok_dec db : Decision (db_ok db).
Proof. unfold db_ok; apply _. Defined.

(** The sum of all credit balances, SUM(credits): NULL balances do not
    count. *)
Definition sum_credits (db : DB) : Z :=
  map_fold (fun _ p acc => default 0 (credits p) + acc) 0 (profiles db).

(** No profile has a NULL balance. *)
Definition balances_known (db : DB) : Prop :=
  map_Forall (fun _ p => is_Some (credits p)) (profiles db).

#[global] Instance balances_known_dec db : Decision (balances_known db).
Proof. unfold balances_known; apply _. Defined.

(** The ledger rows that refer to a given swap. *)
Definition payments_for (k : uuid) (db : DB) : list Transaction :=
  filter (fun t => swap_id t = Some k) (transactions db).

(** A sequence of calls, each with its caller, its clock and its swap. *)
Fixpoint settle_all (calls : list (option uuid * timestamptz * uuid))
    (db : DB) : DB :=
  match calls with
  | [] => db
  | (uid, now, k) :: rest =>
      settle_all rest (fst (handle_swap_completion uid now k db))
  end.

(** ** Sample data *)

Definition sample_profile (e : string) (c : Z) : Profile :=
  mkProfile e None None (Some c) (Some 0) (Some 0) (Some 0) (Some 0) 0 0.

(** Teacher 1 with [ct] credits, learner 2 with [cl] credits, and swap 7
    between them worth [c] credits in status [st]. *)
Definition sample_db (ct cl c : Z) (st : swap_status) : DB :=
  mkDB (<[1%N := sample_profile "teacher@example.org" ct]>
          (<[2%N := sample_profile "learner@example.org" cl]> ∅))
       (<[7%N := mkSwap 9%N 1%N 2%N (Some st) 2 c 0 0]> ∅)
       [].

(** ** Table [reviews] *)

(** [reviews.review_type], restricted by its CHECK constraint. *)
Inductive ReviewType : Set := as_teacher | as_learner.

#[global] Instance ReviewType_eq_dec : EqDecision ReviewType.
Proof. solve_decision. Defined.

(** A row of [reviews]; [id] is [gen_random_uuid()] and is never read. *)
Record Review : Type := mkReview {
  review_swap_id : uuid;
  reviewer_id : uuid;
  reviewee_id : uuid;
  rating : Z;
  comment : option string;
  review_type : ReviewType;
  review_created_at : timestamptz
}.

(** UNIQUE (swap_id, reviewer_id, review_type). *)
Definition review_key (r : Review) : N * N * ReviewType :=
  (review_swap_id r, reviewer_id r, review_type r).

(** The EXISTS subquery of the policy below; [id] is the primary key of
    [swaps], so at most one row can match. *)
Definition completed_swap_of (uid : option uuid) (k : uuid) (db : DB) : bool :=
  match swaps db !! k with
  | Some s =>
      is_true
        (sql_and
           (sql_or (sql_eq (Some (teacher_id s)) uid)
                   (sql_eq (Some (learner_id s)) uid))
           (sql_eq_status (status s) completed))
  | None => false
  end.

(** CREATE POLICY "Users can create reviews for their swaps" ON reviews
    FOR INSERT WITH CHECK (auth.uid() = reviewer_id AND EXISTS (...)). *)
Definition users_can_create_reviews_for_their_swaps (uid : option uuid)
    (r : Review) (db : DB) : option bool :=
  sql_and (sql_eq uid (Some (reviewer_id r)))
          (Some (completed_swap_of uid (review_swap_id r) db)).

(** Errors of an INSERT: those of [sql_error], and a reference to a row
    that does not exist. *)
Inductive insert_error : Type :=
| engine_error (e : sql_error)
| foreign_key_violation (constraint : string).

(** INSERT INTO reviews (swap_id, reviewer_id, reviewee_id, rating, comment,
    review_type) issued by [uid] through the table interface.  The rating
    is converted to INTEGER, the policy is checked, then the CHECK on the
    rating, then the unique index, and the foreign keys at the end of the
    statement. *)
Definition insert_review (uid : option uuid) (r : Review) (db : DB)
    (reviews : list Review) : insert_error + list Review :=
  if negb (int4_range (rating r))
  then inl (engine_error numeric_value_out_of_range)
  else if negb (is_true (users_can_create_reviews_for_their_swaps uid r db))
  then inl (engine_error (rls_violation "reviews"))
  else if negb ((1 <=? rating r) && (rating r <=? 5))
  then inl (engine_error (check_violation "reviews" "reviews_rating_check"))
  else if bool_decide (review_key r ∈ (review_key <$> reviews))
  then inl (engine_error
              (unique_violation "reviews_swap_id_reviewer_id_review_type_key"))
  else if negb (bool_decide (is_Some (swaps db !! review_swap_id r)))
  then inl (foreign_key_violation "reviews_swap_id_fkey")
  else if negb (bool_decide (is_Some (profiles db !! reviewer_id r)))
  then inl (foreign_key_violation "reviews_reviewer_id_fkey")
  else if negb (bool_decide (is_Some (profiles db !! reviewee_id r)))
  then inl (foreign_key_violation "reviews_reviewee_id_fkey")
  else inr (reviews ++ [r]).

(** ** Row-level security on [profiles] *)

(** CREATE POLICY "Users can update own profile" ON profiles FOR UPDATE
    USING (auth.uid() = id). *)
Definition users_can_update_own_profile (uid : option uuid) (k : uuid)
    : option bool :=
  sql_eq uid (Some k).

(** Conversion of a supplied number to INTEGER; NULL stays NULL. *)
Definition int4_input (v : option Z) : outcome (option Z) :=
  match v with
  | Some z => z' <-- int4 z ;; ok (Some z')
  | None => ok None
  end.

(** UPDATE profiles SET credits = v WHERE id = k, issued by [uid] through
    the table interface; it is what [updateProfile({ credits: v })] of
    useAuth sends for the signed-in user [k].  The value is converted to
    INTEGER, a row the policy does not admit is skipped, and the new row
    version is checked against CHECK (credits >= 0). *)
Definition update_profile_credits (uid : option uuid) (v : option Z)
    (k : uuid) (db : DB) : outcome DB :=
  v' <-- int4_input v ;;
  match profiles db !! k with
  | None => ok db
  | Some p =>
      if is_true (users_can_update_own_profile uid k) then
        p' <-- profiles_check (set_credits v' p) ;;
        ok (with_profiles (<[k := p']> (profiles db)) db)
      else ok db
  end.

(** ** SkillForm: the tag list *)

(** The part of the form's state the tag handlers read and write. *)
Record tag_state : Type := mkTagState {
  tags : list string;
  tagInput : string
}.

(** [handleTagAdd], the key-down handler of the tag input.  [trim] is
    String.prototype.trim; an empty string is falsy. *)
Definition handleTagAdd (trim : string -> string) (key : string)
    (st : tag_state) : tag_state :=
  if bool_decide (key = "Enter") && negb (bool_decide (trim (tagInput st) = ""))
  then
    if negb (bool_decide (trim (tagInput st) ∈ tags st))
       && (length (tags st) <? 5)%nat
    then mkTagState (tags st ++ [trim (tagInput st)]) ""
    else st
  else st.

(** [handleTagRemove]. *)
Definition handleTagRemove (tagToRemove : string) (st : tag_state)
    : tag_state :=
  mkTagState (filter (fun tag => tag <> tagToRemove) (tags st)) (tagInput st).

(** What the user can do to the tag list: type into the input
    ([setTagInput]), press a key in it, click a tag's remove button. *)
Inductive tag_event : Type :=
| Change (value : string)
| KeyDown (key : string)
| RemoveClick (tag : string).

Definition tag_step (trim : string -> string) (st : tag_state)
    (ev : tag_event) : tag_state :=
  match ev with
  | Change value => mkTagState (tags st) value
  | KeyDown key => handleTagAdd trim key st
  | RemoveClick tag => handleTagRemove tag st
  end.

(** ** utils: formatRelativeTime *)

(** [formatRelativeTime(date)].  [now] and [targetDate] are the two
    [getTime()] values in milliseconds, [None] being the NaN of an invalid
    date, with which every comparison is false; [formatDate] is the text
    [formatDate(date)] gives. *)
Definition formatRelativeTime (now : Z) (targetDate : option Z)
    (formatDate : string) : string :=
  match targetDate with
  | None => formatDate
  | Some t =>
      let diffMs := now - t in
      let diffMinutes := diffMs / (1000 * 60) in
      let diffHours := diffMs / (1000 * 60 * 60) in
      let diffDays := diffMs / (1000 * 60 * 60 * 24) in
      if diffMinutes <? 1 then "Just now"
      else if diffMinutes <? 60 then (pretty diffMinutes ++ "m ago")%string
      else if diffHours <? 24 then (pretty diffHours ++ "h ago")%string
      else if diffDays <? 7 then (pretty diffDays ++ "d ago")%string
      else formatDate
  end.

(** The ledger agrees with the swaps: no swap has two payment rows, and a
    swap that the status test of handle_swap_completion lets through, one
    in progress or with a NULL status, has none. *)
Definition ledger_ok (db : DB) : Prop :=
  forall k,
    (length (payments_for k db) <= 1)%nat /\
    (forall s, swaps db !! k = Some s ->
               status s = Some in_progress \/ status s = None ->
               payments_for k db = []).

(** ** Two calls at the same time *)

(** handle_swap_completion takes no lock: its SELECT ... INTO has no FOR
    UPDATE and its UPDATE of swaps no test of the status.  [seen] is the
    database at the time of the SELECT ... INTO, [db] the database when the
    inner block runs; under READ COMMITTED each statement of the block
    sees what was committed before it. *)
Definition handle_swap_completion_after (uid : option uuid)
    (now : timestamptz) (swap_uuid : uuid) (seen db : DB) : DB * jsonb :=
  match swaps seen !! swap_uuid with
  | None => (db, failure "Swap not found")
  | Some swap_record =>
      if is_true (sql_ne_status (status swap_record) in_progress)
      then (db, failure "Swap is not in progress")
      else if is_true (sql_and
                         (sql_ne uid (Some (teacher_id swap_record)))
                         (sql_ne uid (Some (learner_id swap_record))))
      then (db, failure "Unauthorized")
      else
        match transfer_credits swap_uuid swap_record now db with
        | ok (db', result) => (db', result)
        | raise e => (db, failure (SQLERRM e))
        end
  end.

(** Two calls on the same swap that both read it before either changed
    it: the first runs its block and commits, the second then runs its
    block with the record it read.  The result is the final database and
    the two JSONB results. *)
Definition settle_concurrently (uid1 uid2 : option uuid)
    (now1 now2 : timestamptz) (swap_uuid : uuid) (db : DB)
    : DB * jsonb * jsonb :=
  let r1 := handle_swap_completion uid1 now1 swap_uuid db in
  let r2 := handle_swap_completion_after uid2 now2 swap_uuid db (fst r1) in
  (fst r2, snd r1, snd r2).

(** ** auth.users and the trigger on_auth_user_created *)


(** profiles.id REFERENCES auth.users(id). *)
Definition profiles_fk (users : gset N) (db : DB) : Prop :=
  dom (profiles db) ⊆ users.

#[global] Instance profiles_fk_dec users db : Decision (profiles_fk users db).
Proof. unfold profiles_fk; apply _. Defined.




(** ** Proof automation *)

(** Arithmetic over the INTEGER bounds. *)
Ltac int4_lia := unfold int4_min, int4_max in *; lia.

(** Closed goals over concrete tables. *)
Ltac by_evaluation := vm_compute; first [reflexivity | congruence | done].

Ltac db_ok_by_evaluation :=
  match goal with
  | |- db_ok ?d => apply (bool_decide_unpack (db_ok d)); vm_compute; exact I
  | |- balances_known ?d =>
      apply (bool_decide_unpack (balances_known d)); vm_compute; exact I
  | |- profiles_fk ?u ?d =>
      apply (bool_decide_unpack (profiles_fk u d)); vm_compute; exact I
  end.

(** * Properties *)

(** ** Statements *)

Lemma bind_ok {A B} (m : outcome A) (k : A -> outcome B) (b : B) :
  bind m k = ok b -> exists a, m = ok a /\ k a = ok b.
Proof. destruct m as [a|e]; simpl; [eauto | discriminate]. Qed.

Lemma int4_ok (z z' : Z) :
  int4 z = ok z' -> z' = z /\ int4_min <= z <= int4_max.
Proof.
  unfold int4, int4_range.
  destruct (int4_min <=? z) eqn:Hlo, (z <=? int4_max) eqn:Hhi;
    simpl; intros [= <-]; lia.
Qed.

Lemma int4_in_range (z : Z) : int4_min <= z <= int4_max -> int4 z = ok z.
Proof.
  intros [Hlo Hhi]. unfold int4, int4_range.
  apply Z.leb_le in Hlo, Hhi. by rewrite Hlo, Hhi.
Qed.

Lemma int4_range_spec (z : Z) :
  int4_range z = true <-> int4_min <= z <= int4_max.
Proof. unfold int4_range. rewrite andb_true_iff, !Z.leb_le. tauto. Qed.

(** INTEGER arithmetic on nullable operands. *)
Lemma sql_add_ok (a : option Z) (y : Z) (v : option Z) :
  sql_add a (Some y) = ok v ->
  v = (fun x => x + y) <$> a /\
  forall x, a = Some x -> int4_min <= x + y <= int4_max.
Proof.
  destruct a as [x|]; simpl.
  - intros (w & [-> Hw]%int4_ok & [= <-])%bind_ok. split; [done|].
    by intros ? [= <-].
  - intros [= <-]. by split.
Qed.

Lemma sql_sub_ok (a : option Z) (y : Z) (v : option Z) :
  sql_sub a (Some y) = ok v ->
  v = (fun x => x - y) <$> a /\
  forall x, a = Some x -> int4_min <= x - y <= int4_max.
Proof.
  destruct a as [x|]; simpl.
  - intros (w & [-> Hw]%int4_ok & [= <-])%bind_ok. split; [done|].
    by intros ? [= <-].
  - intros [= <-]. by split.
Qed.

Lemma sql_add_in_range (x y : Z) :
  int4_min <= x + y <= int4_max -> sql_add (Some x) (Some y) = ok (Some (x + y)).
Proof. intros H. simpl. by rewrite int4_in_range. Qed.

Lemma sql_sub_in_range (x y : Z) :
  int4_min <= x - y <= int4_max -> sql_sub (Some x) (Some y) = ok (Some (x - y)).
Proof. intros H. simpl. by rewrite int4_in_range. Qed.

Lemma nullable_spec (admits : Z -> bool) (v : option Z) :
  nullable admits v = true <-> forall z, v = Some z -> admits z = true.
Proof.
  destruct v as [z|]; simpl.
  - split; [by intros ? ? [= <-]|auto].
  - split; [by intros|done].
Qed.

Lemma profile_ok_spec (p : Profile) :
  profile_ok p = true <->
  (forall c, credits p = Some c -> 0 <= c <= int4_max) /\
  (forall n, skills_taught p = Some n -> int4_min <= n <= int4_max) /\
  (forall n, skills_learned p = Some n -> int4_min <= n <= int4_max).
Proof.
  unfold profile_ok. rewrite !andb_true_iff, !nullable_spec. split.
  - intros [[Hc Ht] Hl]. split; [|split]; intros z Hz.
    + apply Hc, andb_true_iff in Hz as [Hlo Hhi].
      apply Z.leb_le in Hlo, Hhi. lia.
    + by apply int4_range_spec, Ht.
    + by apply int4_range_spec, Hl.
  - intros (Hc & Ht & Hl). split; [split|]; intros z Hz.
    + apply andb_true_iff. rewrite !Z.leb_le. by apply Hc.
    + by apply int4_range_spec, Ht.
    + by apply int4_range_spec, Hl.
Qed.

Lemma swap_ok_spec (ps : gmap N Profile) (s : Swap) :
  swap_ok ps s = true <->
  is_Some (ps !! teacher_id s) /\ is_Some (ps !! learner_id s) /\
  int4_min <= total_credits s <= int4_max.
Proof.
  unfold swap_ok.
  rewrite !andb_true_iff, !bool_decide_eq_true, int4_range_spec. tauto.
Qed.

Lemma profiles_check_ok (p p' : Profile) :
  profiles_check p = ok p' <->
  p' = p /\ forall c, credits p = Some c -> 0 <= c.
Proof.
  unfold profiles_check. destruct (credits p) as [c|].
  - destruct (0 <=? c) eqn:Hc.
    + apply Z.leb_le in Hc. split.
      * intros [= <-]. split; [done|]. by intros ? [= <-].
      * by intros [-> _].
    + apply Z.leb_gt in Hc. split; [discriminate|].
      intros [_ H]. specialize (H c eq_refl). lia.
  - split; [by intros [= <-]|by intros [-> _]].
Qed.

(** What a completed UPDATE of [profiles] did. *)
Lemma update_profiles_ok assign k db db' :
  update_profiles assign k db = ok db' ->
  swaps db' = swaps db /\ transactions db' = transactions db /\
  ((profiles db !! k = None /\ profiles db' = profiles db) \/
   (exists p p', profiles db !! k = Some p /\ assign p = ok p' /\
                 (forall c, credits p' = Some c -> 0 <= c) /\
                 profiles db' = <[k := p']> (profiles db))).
Proof.
  unfold update_profiles. destruct (profiles db !! k) as [p|] eqn:Hk.
  - intros (p' & Hp' & H)%bind_ok.
    apply bind_ok in H as (p'' & [-> Hc]%profiles_check_ok & [= <-]).
    repeat split; [right; eauto 10].
  - intros [= <-]. repeat split; [left; done].
Qed.

Lemma update_profiles_run assign k db p p' :
  profiles db !! k = Some p ->
  assign p = ok p' ->
  (forall c, credits p' = Some c -> 0 <= c) ->
  update_profiles assign k db
    = ok (with_profiles (<[k := p']> (profiles db)) db).
Proof.
  intros Hk Hp Hc. unfold update_profiles. rewrite Hk, Hp. simpl.
  by rewrite (proj2 (profiles_check_ok p' p')).
Qed.

Lemma sum_credits_insert (ps : gmap N Profile) k p p' ts ss :
  ps !! k = Some p ->
  sum_credits (mkDB (<[k := p']> ps) ss ts) =
  sum_credits (mkDB ps ss ts) - default 0 (credits p) + default 0 (credits p').
Proof.
  intros Hk. unfold sum_credits; simpl.
  rewrite <- insert_delete_eq.
  rewrite map_fold_insert_L; [|intros; lia|apply lookup_delete_eq].
  rewrite (map_fold_delete_L _ _ k p ps); [lia|intros; lia|done].
Qed.

Lemma update_profiles_sum assign k db db' d :
  (forall p p', profiles db !! k = Some p -> assign p = ok p' ->
     default 0 (credits p') = default 0 (credits p) + d) ->
  is_Some (profiles db !! k) ->
  update_profiles assign k db = ok db' ->
  sum_credits db' = sum_credits db + d.
Proof.
  intros Hd [p Hp] (Hs & Ht & [[Hn _]|(q & q' & Hq & Hq' & _ & Hps)])%update_profiles_ok;
    [congruence|].
  specialize (Hd _ _ Hq Hq').
  destruct db as [ps ss ts], db' as [ps' ss' ts']; simpl in *; subst.
  rewrite (sum_credits_insert ps k q q') by done. lia.
Qed.

Lemma update_profiles_db_ok assign k db db' :
  (forall p p', profile_ok p = true -> assign p = ok p' ->
                (forall c, credits p' = Some c -> 0 <= c) ->
                profile_ok p' = true) ->
  db_ok db ->
  update_profiles assign k db = ok db' ->
  db_ok db'.
Proof.
  intros Hassign [Hps Hss]
    (Hs & Ht & [[_ Heq]|(p & p' & Hp & Hp' & Hc & Heq)])%update_profiles_ok;
    unfold db_ok; rewrite Hs, Heq; [done|].
  split.
  - apply map_Forall_insert_2; [|done]. eapply Hassign; eauto.
  - intros j s Hj. specialize (Hss j s Hj). simpl in *.
    apply swap_ok_spec in Hss as (H1 & H2 & H3). apply swap_ok_spec.
    rewrite !lookup_insert_is_Some. destruct H1, H2.
    repeat split; try lia;
      [destruct (decide (k = teacher_id s))|destruct (decide (k = learner_id s))];
      eauto.
Qed.

Lemma update_profiles_is_Some assign k db db' j :
  update_profiles assign k db = ok db' ->
  is_Some (profiles db !! j) -> is_Some (profiles db' !! j).
Proof.
  intros (_ & _ & [[_ ->]|(p & p' & Hp & _ & _ & ->)])%update_profiles_ok Hj;
    [done|].
  rewrite lookup_insert_is_Some. destruct (decide (k = j)); eauto.
Qed.

(** ** The credit transfer block *)

Lemma debit_learner_ok c p p' :
  debit_learner c p = ok p' ->
  p' = set_credits ((fun x => x - c) <$> credits p) p /\
  forall x, credits p = Some x -> int4_min <= x - c <= int4_max.
Proof.
  unfold debit_learner.
  intros (v & [-> Hv]%sql_sub_ok & [= <-])%bind_ok. done.
Qed.

Lemma credit_teacher_ok c p p' :
  credit_teacher c p = ok p' ->
  p' = set_skills_taught ((fun n => n + 1) <$> skills_taught p)
         (set_credits ((fun x => x + c) <$> credits p) p) /\
  (forall x, credits p = Some x -> int4_min <= x + c <= int4_max) /\
  (forall n, skills_taught p = Some n -> int4_min <= n + 1 <= int4_max).
Proof.
  unfold credit_teacher.
  intros (v & [-> Hv]%sql_add_ok & (n & [-> Hn]%sql_add_ok & [= <-])%bind_ok)%bind_ok.
  done.
Qed.

Lemma count_learned_ok p p' :
  count_learned p = ok p' ->
  p' = set_skills_learned ((fun n => n + 1) <$> skills_learned p) p /\
  forall n, skills_learned p = Some n -> int4_min <= n + 1 <= int4_max.
Proof.
  unfold count_learned.
  intros (n & [-> Hn]%sql_add_ok & [= <-])%bind_ok. done.
Qed.

(** The block ends in one of two ways: the early RETURN of the balance
    check, with nothing changed, or the end of the five statements. *)
Lemma transfer_credits_ok k s now db db' r :
  transfer_credits k s now db = ok (db', r) ->
  (r = failure "Insufficient credits" /\ db' = db) \/
  (r = swap_completed /\
   exists db1 db2 db3,
     update_profiles (debit_learner (total_credits s)) (learner_id s) db
       = ok db1 /\
     update_profiles (credit_teacher (total_credits s)) (teacher_id s) db1
       = ok db2 /\
     update_profiles count_learned (learner_id s) db2 = ok db3 /\
     db' = insert_transaction (payment k s now)
             (update_swaps (complete_swap now) k db3)).
Proof.
  unfold transfer_credits.
  destruct (is_true _); [intros [= <- <-]; by left|].
  intros (db1 & H1 & (db2 & H2 & (db3 & H3 & [= <- <-])%bind_ok)%bind_ok)%bind_ok.
  right. split; [done|]. by exists db1, db2, db3.
Qed.

(** ** Outcomes of handle_swap_completion *)

(** The status test lets through a swap in progress and a swap whose
    status is NULL, and no other. *)
Lemma status_test_spec (st : option swap_status) :
  is_true (sql_ne_status st in_progress) = false <->
  st = Some in_progress \/ st = None.
Proof.
  destruct st as [st|]; simpl; [|tauto].
  case_bool_decide as H; simpl.
  - split; [discriminate|]. intros [[= ->]|[=]]. done.
  - split; [|done]. intros _. left. f_equal.
    by destruct (decide (st = in_progress)).
Qed.

Lemma status_test_stops (st : swap_status) :
  st <> in_progress -> is_true (sql_ne_status (Some st) in_progress) = true.
Proof. intros H. simpl. by rewrite bool_decide_eq_true_2. Qed.

(** A successful call went through the whole transfer block. *)
Lemma handle_swap_completion_success uid now k db :
  succeeded (snd (handle_swap_completion uid now k db)) = true ->
  exists s,
    swaps db !! k = Some s /\
    (status s = Some in_progress \/ status s = None) /\
    transfer_credits k s now db
      = ok (fst (handle_swap_completion uid now k db), swap_completed).
Proof.
  unfold handle_swap_completion.
  destruct (swaps db !! k) as [s|] eqn:Hs; [|discriminate].
  destruct (is_true (sql_ne_status (status s) in_progress)) eqn:Hst;
    [discriminate|].
  destruct (is_true (sql_and _ _)); [discriminate|].
  destruct (transfer_credits k s now db) as [[db' r]|e] eqn:Ht; [|discriminate].
  simpl. intros Hr. exists s. split; [done|]. split.
  - by apply status_test_spec.
  - apply transfer_credits_ok in Ht as Ht'.
    destruct Ht' as [[-> _]|[-> _]]; [discriminate|done].
Qed.

(** Every call either reports a failure and leaves the database as it
    found it, or reports success after the whole transfer block. *)
Lemma handle_swap_completion_cases uid now k db :
  let r := handle_swap_completion uid now k db in
  (succeeded (snd r) = false /\ fst r = db) \/
  (succeeded (snd r) = true /\
   exists s, swaps db !! k = Some s /\
             (status s = Some in_progress \/ status s = None) /\
             transfer_credits k s now db = ok (fst r, swap_completed)).
Proof.
  simpl. destruct (succeeded (snd (handle_swap_completion uid now k db))) eqn:Hr.
  - right. split; [done|]. by apply handle_swap_completion_success.
  - left. split; [done|]. revert Hr. unfold handle_swap_completion.
    destruct (swaps db !! k) as [s|]; [|done].
    destruct (is_true (sql_ne_status (status s) in_progress)); [done|].
    destruct (is_true (sql_and _ _)); [done|].
    destruct (transfer_credits k s now db) as [[db' r]|e] eqn:Ht; [|done].
    apply transfer_credits_ok in Ht as [[-> ->]|[-> _]]; [done|discriminate].
Qed.

(** ** Settlement of an in-progress swap *)

Lemma authorized_participant (a : N) (s : Swap) :
  a = teacher_id s \/ a = learner_id s ->
  is_true (sql_and (sql_ne (Some a) (Some (teacher_id s)))
                   (sql_ne (Some a) (Some (learner_id s)))) = false.
Proof.
  unfold sql_ne, sql_eq; simpl.
  intros [->| ->]; repeat case_bool_decide; simpl; congruence.
Qed.

Lemma unauthorized_stranger (a : N) (s : Swap) :
  a <> teacher_id s -> a <> learner_id s ->
  is_true (sql_and (sql_ne (Some a) (Some (teacher_id s)))
                   (sql_ne (Some a) (Some (learner_id s)))) = true.
Proof.
  unfold sql_ne, sql_eq; simpl.
  intros; repeat case_bool_decide; simpl; congruence.
Qed.

(** The transfer between two distinct profiles whose balances and counters
    are not NULL, when every new value fits its column, whatever the sign
    of the price. *)
Lemma handle_swap_completion_runs (a : N) (now : Z) (k : N) (db : DB)
    (s : Swap) (pt pl : Profile) (ct cl nt nl : Z) :
  swaps db !! k = Some s ->
  status s = Some in_progress \/ status s = None ->
  a = teacher_id s \/ a = learner_id s ->
  teacher_id s <> learner_id s ->
  profiles db !! teacher_id s = Some pt ->
  profiles db !! learner_id s = Some pl ->
  credits pt = Some ct -> skills_taught pt = Some nt ->
  credits pl = Some cl -> skills_learned pl = Some nl ->
  total_credits s <= cl ->
  cl - total_credits s <= int4_max ->
  0 <= ct + total_credits s <= int4_max ->
  int4_min <= nt + 1 <= int4_max ->
  int4_min <= nl + 1 <= int4_max ->
  handle_swap_completion (Some a) now k db =
    (mkDB
       (<[teacher_id s :=
            set_skills_taught (Some (nt + 1))
              (set_credits (Some (ct + total_credits s)) pt)]>
          (<[learner_id s :=
               set_skills_learned (Some (nl + 1))
                 (set_credits (Some (cl - total_credits s)) pl)]>
             (profiles db)))
       (<[k := complete_swap now s]> (swaps db))
       (transactions db ++ [payment k s now]),
     swap_completed).
Proof.
  intros Hs Hst Ha Hne Ht Hl Hct Hnt Hcl Hnl Hbal Hlmax Htr Htaught Hlearned.
  unfold handle_swap_completion. rewrite Hs.
  rewrite (proj2 (status_test_spec _) Hst).
  rewrite authorized_participant by done.
  unfold transfer_credits. rewrite Hl; simpl. rewrite Hcl; simpl.
  replace (cl <? total_credits s) with false
    by (symmetry; apply Z.ltb_ge; lia).
  rewrite (update_profiles_run _ _ _ pl
             (set_credits (Some (cl - total_credits s)) pl));
    [|done
     |unfold debit_learner; by rewrite Hcl, sql_sub_in_range by int4_lia
     |simpl; intros ? [= <-]; lia].
  simpl.
  rewrite (update_profiles_run _ _ _ pt
             (set_skills_taught (Some (nt + 1))
                (set_credits (Some (ct + total_credits s)) pt)));
    [|by simpl; rewrite lookup_insert_ne
     |unfold credit_teacher;
      by rewrite Hct, Hnt, !sql_add_in_range by int4_lia
     |simpl; intros ? [= <-]; lia].
  simpl.
  rewrite (update_profiles_run _ _ _
             (set_credits (Some (cl - total_credits s)) pl)
             (set_skills_learned (Some (nl + 1))
                (set_credits (Some (cl - total_credits s)) pl)));
    [|by simpl; rewrite lookup_insert_ne, lookup_insert_eq
     |unfold count_learned; simpl; by rewrite Hnl, sql_add_in_range by int4_lia
     |simpl; intros ? [= <-]; lia].
  simpl. unfold insert_transaction, update_swaps, with_transactions,
    with_swaps, with_profiles; simpl.
  f_equal. f_equal.
  - rewrite (insert_insert_ne _ (learner_id s) (teacher_id s)) by done.
    by rewrite insert_insert_eq.
  - apply map_eq; intros j. rewrite lookup_alter, lookup_insert.
    case_decide; subst; by rewrite ?Hs.
Qed.

(** C1 (as amended).  For a swap in progress between two distinct profiles
    with a non-negative price, called by its teacher or its learner while
    the learner holds at least the price: provided the teacher's new
    balance and the two incremented counters still fit an INTEGER, the call
    reports success and the database afterwards is the one before with
    exactly these changes: the learner's row has the price debited and
    skills_learned incremented, the teacher's row has the price credited
    and skills_taught incremented, the swap is completed (updated_at set to
    the time of the call), and one swap_payment row from the learner to the
    teacher for this swap and this amount is appended to the ledger.  The
    two balances and the two counters are numbers, [ct], [cl], [nt] and
    [nl], not NULL. *)
Theorem settle_transfers_credits (a : N) (now : Z) (k : N) (db : DB)
    (s : Swap) (pt pl : Profile) (ct cl nt nl : Z) :
  db_ok db ->
  swaps db !! k = Some s ->
  status s = Some in_progress ->
  a = teacher_id s \/ a = learner_id s ->
  teacher_id s <> learner_id s ->
  0 <= total_credits s ->
  profiles db !! teacher_id s = Some pt ->
  profiles db !! learner_id s = Some pl ->
  credits pt = Some ct ->
  skills_taught pt = Some nt ->
  credits pl = Some cl ->
  skills_learned pl = Some nl ->
  total_credits s <= cl ->
  ct + total_credits s <= int4_max ->
  nt + 1 <= int4_max ->
  nl + 1 <= int4_max ->
  handle_swap_completion (Some a) now k db =
    (mkDB
       (<[teacher_id s :=
            set_skills_taught (Some (nt + 1))
              (set_credits (Some (ct + total_credits s)) pt)]>
          (<[learner_id s :=
               set_skills_learned (Some (nl + 1))
                 (set_credits (Some (cl - total_credits s)) pl)]>
             (profiles db)))
       (<[k := set_swap_updated_at now (set_status (Some completed) s)]>
          (swaps db))
       (transactions db ++
          [mkTransaction (Some (learner_id s)) (teacher_id s) (Some k)
             (total_credits s) swap_payment
             (Some "Payment for completed skill swap") now]),
     jsonb_build_object "success" (jbool true)
       "message" (jtext "Swap completed successfully")).
Proof.
  intros [Hps _] Hs Hst Ha Hne Hc Ht Hl Hct Hnt Hcl Hnl Hbal Hcmax Htaught
    Hlearned.
  pose proof (proj1 (profile_ok_spec _) (Hps _ _ Ht)) as (Hct0 & Htt & _).
  pose proof (proj1 (profile_ok_spec _) (Hps _ _ Hl)) as (Hcl0 & _ & Hll).
  specialize (Hct0 _ Hct). specialize (Htt _ Hnt).
  specialize (Hcl0 _ Hcl). specialize (Hll _ Hnl).
  apply (handle_swap_completion_runs a now k db s pt pl ct cl nt nl);
    auto; int4_lia.
Qed.

(** The second scenario: price 10, teacher at 50, learner at 20. *)
Lemma settle_transfers_credits_witness :
  let r := handle_swap_completion (Some 2%N) 5 7%N
             (sample_db 50 20 10 in_progress) in
  snd r = swap_completed /\
  profiles (fst r) !! 1%N ≫= credits = Some 60 /\
  profiles (fst r) !! 2%N ≫= credits = Some 10 /\
  swaps (fst r) !! 7%N ≫= status = Some completed /\
  length (transactions (fst r)) = 1%nat.
Proof.
  intros r. subst r.
  rewrite (settle_transfers_credits 2%N 5 7%N (sample_db 50 20 10 in_progress)
             (mkSwap 9%N 1%N 2%N (Some in_progress) 2 10 0 0)
             (sample_profile "teacher@example.org" 50)
             (sample_profile "learner@example.org" 20) 50 20 0 0).
  - by_evaluation.
  - db_ok_by_evaluation.
  - by_evaluation.
  - by_evaluation.
  - right; by_evaluation.
  - by_evaluation.
  - by_evaluation.
  - by_evaluation.
  - by_evaluation.
  - by_evaluation.
  - by_evaluation.
  - by_evaluation.
  - by_evaluation.
  - by_evaluation.
  - by_evaluation.
  - by_evaluation.
  - by_evaluation.
Defined.

(** C1 (as stated) fails when the teacher's balance cannot take the price:
    with the teacher at 2147483647, the learner at 20 and a price of 10, all
    preconditions hold and the call reports the engine's overflow error,
    changing nothing. *)
Lemma settle_transfers_credits_counterexample :
  let db := sample_db 2147483647 20 10 in_progress in
  swaps db !! 7%N = Some (mkSwap 9%N 1%N 2%N (Some in_progress) 2 10 0 0) /\
  profiles db !! 2%N ≫= credits = Some 20 /\
  handle_swap_completion (Some 2%N) 5 7%N db
    = (db, failure "integer out of range").
Proof. by_evaluation. Qed.

(** Two more inputs the schema admits and the amended statement excludes:
    a swap of a profile with itself moves no credits, and a negative price
    that the teacher cannot cover violates CHECK (credits >= 0). *)
Example settle_self_swap :
  let db := mkDB {[1%N := sample_profile "both@example.org" 20]}
                 {[7%N := mkSwap 9%N 1%N 1%N (Some in_progress) 2 10 0 0]} [] in
  let r := handle_swap_completion (Some 1%N) 5 7%N db in
  snd r = swap_completed /\
  profiles (fst r) !! 1%N
    = Some (mkProfile "both@example.org" None None (Some 20) (Some 1) (Some 1)
              (Some 0) (Some 0) 0 0).
Proof. by_evaluation. Qed.

Example settle_negative_price :
  let db := sample_db 5 20 (-10) in_progress in
  handle_swap_completion (Some 2%N) 5 7%N db
    = (db, failure (SQLERRM (check_violation "profiles" "profiles_credits_check"))).
Proof. by_evaluation. Qed.

(** ** Order of the precondition checks; a second call *)

(** The tables other than [profiles] after a completed transfer. *)
Lemma transfer_credits_completed k s now db db' :
  transfer_credits k s now db = ok (db', swap_completed) ->
  swaps db' = alter (complete_swap now) k (swaps db) /\
  transactions db' = transactions db ++ [payment k s now].
Proof.
  intros [[? _]|[_ (db1 & db2 & db3 & H1 & H2 & H3 & ->)]]%transfer_credits_ok;
    [discriminate|].
  apply update_profiles_ok in H1 as (Hs1 & Ht1 & _).
  apply update_profiles_ok in H2 as (Hs2 & Ht2 & _).
  apply update_profiles_ok in H3 as (Hs3 & Ht3 & _).
  simpl. by rewrite Hs3, Hs2, Hs1, Ht3, Ht2, Ht1.
Qed.

(** C2.  The claim fails on the code where a compared value is NULL.  The
    authorization test, auth.uid() != teacher_id AND auth.uid() !=
    learner_id, is unknown when auth.uid() is NULL, and the status test,
    status != 'in_progress', is unknown when the status is NULL; an IF
    whose condition is unknown does not take its branch.  So a caller
    without identity is not refused: on the second scenario's swap the call
    succeeds, moves the 10 credits and logs the payment.  And a swap whose
    status is NULL is not refused either: after a participant has set the
    status of a completed swap to NULL, which the UPDATE policy and the
    CHECK on the column admit, a further call pays a second time and the
    ledger holds two rows for the swap. *)
Theorem settle_null_passes_the_checks :
  let db := sample_db 50 20 10 in_progress in
  let r := handle_swap_completion None 5 7%N db in
  (snd r = swap_completed /\
   profiles (fst r) !! 1%N ≫= credits = Some 60 /\
   profiles (fst r) !! 2%N ≫= credits = Some 10 /\
   length (payments_for 7%N (fst r)) = 1%nat) /\
  let db1 := fst (handle_swap_completion (Some 2%N) 5 7%N db) in
  exists db2,
    swaps db1 !! 7%N ≫= status = Some completed /\
    update_swap_status (Some 2%N) None 7%N db1 = ok db2 /\
    db_ok db2 /\
    let r' := handle_swap_completion (Some 2%N) 6 7%N db2 in
    snd r' = swap_completed /\
    profiles (fst r') !! 1%N ≫= credits = Some 70 /\
    profiles (fst r') !! 2%N ≫= credits = Some 0 /\
    length (payments_for 7%N (fst r')) = 2%nat.
Proof.
  split; [by_evaluation|].
  eexists. split; [by_evaluation|]. split; [by_evaluation|].
  split; [db_ok_by_evaluation|by_evaluation].
Qed.

(** ** Failure leaves no effect *)

(** C3.  Whenever the call reports a failure, for whatever reason (a failed
    precondition or an error raised by a statement after the balance
    check), the database afterwards is the database before: no balance, no
    counter, no swap and no ledger row differs. *)
Theorem settle_failure_has_no_effect (uid : option N) (now : Z) (k : N)
    (db : DB) :
  succeeded (snd (handle_swap_completion uid now k db)) = false ->
  fst (handle_swap_completion uid now k db) = db.
Proof.
  intros Hr.
  destruct (handle_swap_completion_cases uid now k db) as [[_ H]|[H _]];
    [done|congruence].
Qed.

(** The first scenario: price 10, teacher at 50, learner at 3. *)
Lemma settle_failure_has_no_effect_witness :
  let db := sample_db 50 3 10 in_progress in
  snd (handle_swap_completion (Some 1%N) 5 7%N db)
    = failure "Insufficient credits" /\
  fst (handle_swap_completion (Some 1%N) 5 7%N db) = db.
Proof.
  intros db. split; [by_evaluation|].
  apply (settle_failure_has_no_effect (Some 1%N) 5 7%N db). by_evaluation.
Defined.

(** An error after the balance check: the learner's debit has been applied
    when the teacher's credit overflows, and the result still carries the
    database of before the call. *)
Example settle_rolls_back :
  let db := sample_db 2147483647 20 10 in_progress in
  (exists db1,
     update_profiles (debit_learner 10) 2%N db = ok db1 /\
     profiles db1 !! 2%N ≫= credits = Some 10 /\
     update_profiles (credit_teacher 10) 1%N db1
       = raise numeric_value_out_of_range) /\
  fst (handle_swap_completion (Some 1%N) 5 7%N db) = db.
Proof.
  split; [|by_evaluation].
  eexists. split; [by_evaluation|]. split; by_evaluation.
Qed.

(** ** Conservation of credits *)

(** C4.  The claim fails on the code where a balance is NULL, which the
    column admits (INTEGER DEFAULT 100 CHECK (credits >= 0), without NOT
    NULL) and the owner of a profile can write under the UPDATE policy.
    With the learner's balance NULL the balance check is unknown and is
    skipped, the learner's debit leaves NULL and the teacher is credited:
    the sum of the balances goes from 50 to 60.  With the teacher's balance
    NULL the learner is debited and the teacher's credit leaves NULL: the
    sum goes from 20 to 10.  Both calls report success. *)
Theorem settlement_null_balance_breaks_conservation :
  let db := sample_db 50 20 10 in_progress in
  (exists db0,
     update_profile_credits (Some 2%N) None 2%N db = ok db0 /\
     db_ok db0 /\ sum_credits db0 = 50 /\
     let r := handle_swap_completion (Some 2%N) 5 7%N db0 in
     snd r = swap_completed /\
     profiles (fst r) !! 1%N ≫= credits = Some 60 /\
     profiles (fst r) !! 2%N ≫= credits = None /\
     sum_credits (fst r) = 60) /\
  (exists db0,
     update_profile_credits (Some 1%N) None 1%N db = ok db0 /\
     db_ok db0 /\ sum_credits db0 = 20 /\
     let r := handle_swap_completion (Some 2%N) 5 7%N db0 in
     snd r = swap_completed /\
     profiles (fst r) !! 1%N ≫= credits = None /\
     profiles (fst r) !! 2%N ≫= credits = Some 10 /\
     sum_credits (fst r) = 10).
Proof.
  split; eexists; (split; [by_evaluation|]);
    (split; [db_ok_by_evaluation|by_evaluation]).
Qed.

(** ** Status updates under row-level security *)

Lemma policy_admits_participant (a : N) (s : Swap) :
  a = teacher_id s \/ a = learner_id s ->
  is_true (users_can_update_their_swaps (Some a) s) = true.
Proof.
  unfold users_can_update_their_swaps, sql_eq.
  intros [->| ->]; repeat case_bool_decide; simpl; congruence.
Qed.

Lemma policy_rejects_stranger (uid : option N) (s : Swap) :
  uid <> Some (teacher_id s) -> uid <> Some (learner_id s) ->
  is_true (users_can_update_their_swaps uid s) = false.
Proof.
  unfold users_can_update_their_swaps, sql_eq.
  destruct uid as [a|]; [|done].
  intros; repeat case_bool_decide; simpl; congruence.
Qed.

(** A participant's update is applied whatever the old and new status. *)
Lemma update_swap_status_participant (a : N) st k db s :
  swaps db !! k = Some s ->
  a = teacher_id s \/ a = learner_id s ->
  update_swap_status (Some a) st k db
    = ok (with_swaps (<[k := set_status st s]> (swaps db)) db).
Proof.
  intros Hs Ha. unfold update_swap_status. rewrite Hs.
  rewrite policy_admits_participant by done.
  by rewrite (policy_admits_participant a (set_status st s)).
Qed.

(** Anybody else's update matches no row: nothing changes, nothing is
    raised. *)
Lemma update_swap_status_stranger (uid : option N) st k db s :
  swaps db !! k = Some s ->
  uid <> Some (teacher_id s) -> uid <> Some (learner_id s) ->
  update_swap_status uid st k db = ok db.
Proof.
  intros Hs Ht Hl. unfold update_swap_status. rewrite Hs.
  by rewrite policy_rejects_stranger.
Qed.

(** C5 (as amended).  The code has no table of legal transitions.  For
    every swap, every status it is in and every status asked for, a status
    update issued by the swap's teacher or learner is applied, and one
    issued by anybody else changes nothing and raises nothing; the status
    asked for may be any of the six values or NULL.  The one check of the
    current status is in handle_swap_completion, which on a swap whose
    status is one of the five values other than in_progress answers 'Swap
    is not in progress' and changes nothing. *)
Theorem status_update_only_gated_by_policy (uid : option N) (now : Z)
    (st : option swap_status) (k : N) (db : DB) (s : Swap) :
  swaps db !! k = Some s ->
  (forall a, uid = Some a -> a = teacher_id s \/ a = learner_id s ->
     exists db', update_swap_status uid st k db = ok db' /\
                 swaps db' !! k = Some (set_status st s) /\
                 (forall j, j <> k -> swaps db' !! j = swaps db !! j) /\
                 profiles db' = profiles db /\
                 transactions db' = transactions db) /\
  (uid <> Some (teacher_id s) -> uid <> Some (learner_id s) ->
     update_swap_status uid st k db = ok db) /\
  (forall st0, status s = Some st0 -> st0 <> in_progress ->
     handle_swap_completion uid now k db
       = (db, failure "Swap is not in progress")).
Proof.
  intros Hs. split; [|split].
  - intros a -> Ha. eexists. split.
    + by apply update_swap_status_participant.
    + simpl. rewrite lookup_insert_eq. repeat split.
      intros j Hj. by rewrite lookup_insert_ne.
  - by apply update_swap_status_stranger.
  - intros st0 Hst0 Hst. unfold handle_swap_completion. rewrite Hs, Hst0.
    by rewrite status_test_stops.
Qed.

(** The learner cancels a swap that is in progress. *)
Lemma status_update_only_gated_by_policy_witness :
  let db := sample_db 50 20 10 in_progress in
  exists db', update_swap_status (Some 2%N) (Some cancelled) 7%N db = ok db' /\
              swaps db' !! 7%N
                = Some (mkSwap 9%N 1%N 2%N (Some cancelled) 2 10 0 0).
Proof.
  intros db.
  destruct (status_update_only_gated_by_policy (Some 2%N) 0 (Some cancelled)
              7%N db (mkSwap 9%N 1%N 2%N (Some in_progress) 2 10 0 0)) as (H & _ & _);
    [by_evaluation|].
  destruct (H 2%N) as (db' & Hup & Hk & _); [done|right; by_evaluation|].
  exists db'. by split.
Defined.

(** C5 (as stated) fails: cancel on a swap in progress and a transition out
    of a terminal state are both applied. *)
Lemma transition_legality_counterexample :
  (exists db',
     update_swap_status (Some 2%N) (Some cancelled) 7%N
       (sample_db 50 20 10 in_progress) = ok db' /\
     swaps db' !! 7%N ≫= status = Some cancelled) /\
  (exists db',
     update_swap_status (Some 1%N) (Some in_progress) 7%N
       (sample_db 50 20 10 completed) = ok db' /\
     swaps db' !! 7%N ≫= status = Some in_progress).
Proof. split; eexists; split; by_evaluation. Qed.

(** C6 (as amended).  For every pending swap, a status update (accept or
    decline, or any other) issued by somebody who is neither the swap's
    teacher nor its learner, or by an unauthenticated caller, leaves the
    database unchanged without raising an error; issued by the swap's
    learner it is applied exactly as it is for the teacher. *)
Theorem respond_only_gated_by_policy (uid : option N)
    (st : option swap_status) (k : N) (db : DB) (s : Swap) :
  swaps db !! k = Some s ->
  status s = Some pending ->
  (uid <> Some (teacher_id s) -> uid <> Some (learner_id s) ->
     update_swap_status uid st k db = ok db) /\
  update_swap_status (Some (learner_id s)) st k db
    = update_swap_status (Some (teacher_id s)) st k db /\
  update_swap_status (Some (learner_id s)) st k db
    = ok (with_swaps (<[k := set_status st s]> (swaps db)) db).
Proof.
  intros Hs _. split; [|split].
  - by apply update_swap_status_stranger.
  - rewrite !(update_swap_status_participant _ st k db s); auto.
  - apply update_swap_status_participant; auto.
Qed.

(** A stranger's accept of a pending request does nothing. *)
Lemma respond_only_gated_by_policy_witness :
  let db := sample_db 50 20 10 pending in
  update_swap_status (Some 3%N) (Some accepted) 7%N db = ok db.
Proof.
  intros db.
  apply (respond_only_gated_by_policy (Some 3%N) (Some accepted) 7%N db
           (mkSwap 9%N 1%N 2%N (Some pending) 2 10 0 0)); by_evaluation.
Defined.

(** C6 (as stated) fails: the learner accepts their own request. *)
Lemma respond_authorization_counterexample :
  exists db',
    update_swap_status (Some 2%N) (Some accepted) 7%N
      (sample_db 50 20 10 pending) = ok db' /\
    swaps db' !! 7%N ≫= status = Some accepted.
Proof. eexists; split; by_evaluation. Qed.

(** ** Shape of the results *)

(** C8 (as amended).  A result is a JSON object of two members and carries
    no discriminant besides its text: either success with the message
    'Swap completed successfully', or failure with an error text.  The text
    is one of four fixed messages when a precondition fails; when a
    statement of the transfer raises a storage-engine error, the error is
    caught, the database is restored, and the text is the engine's own
    message for that error, unchanged. *)
Theorem settle_result_shape (uid : option N) (now : Z) (k : N) (db : DB) :
  let r := handle_swap_completion uid now k db in
  snd r = swap_completed \/
  (fst r = db /\
   (snd r = failure "Swap not found" \/
    snd r = failure "Swap is not in progress" \/
    snd r = failure "Unauthorized" \/
    snd r = failure "Insufficient credits" \/
    exists s e, swaps db !! k = Some s /\
                transfer_credits k s now db = raise e /\
                snd r = jsonb_build_object "success" (jbool false)
                          "error" (jtext (SQLERRM e)))).
Proof.
  simpl. unfold handle_swap_completion.
  destruct (swaps db !! k) as [s|] eqn:Hs; [|right; auto].
  destruct (is_true (sql_ne_status _ _)); [right; auto|].
  destruct (is_true _); [right; auto|].
  destruct (transfer_credits k s now db) as [[db' r]|e] eqn:Ht.
  - apply transfer_credits_ok in Ht as [[-> ->]|[-> _]];
      [right; auto 6|by left].
  - right. split; [done|]. do 4 right. by exists s, e.
Qed.

(** C8 (as stated) fails: the overflow of the teacher's balance reaches the
    caller as the engine's message, and so does a violated CHECK. *)
Lemma raw_engine_message_counterexample :
  snd (handle_swap_completion (Some 2%N) 5 7%N
         (sample_db 2147483647 20 10 in_progress))
    = jsonb_build_object "success" (jbool false)
        "error" (jtext (SQLERRM numeric_value_out_of_range)) /\
  SQLERRM numeric_value_out_of_range = "integer out of range" /\
  snd (handle_swap_completion (Some 2%N) 5 7%N
         (sample_db 5 20 (-10) in_progress))
    = jsonb_build_object "success" (jbool false)
        "error" (jtext (SQLERRM (check_violation "profiles"
                                   "profiles_credits_check"))).
Proof. repeat split; by_evaluation. Qed.


(** ** Two calls at the same time *)

(** With nothing committed in between, the two readings coincide. *)
Lemma handle_swap_completion_after_same uid now k db :
  handle_swap_completion_after uid now k db db
    = handle_swap_completion uid now k db.
Proof. reflexivity. Qed.

(** C7.  The claim fails on the code.  Two calls on the second scenario's
    swap, one by the teacher and one by the learner, each reading the swap
    while it is still in progress: both report success, the learner is
    debited twice (20 to 0), the teacher is credited twice (50 to 70), and
    the ledger holds two payment rows for the swap.  Nothing serializes the
    calls: the SELECT takes no row lock and the UPDATE that completes the
    swap does not test the status again. *)
Theorem concurrent_settlement_pays_twice :
  let db := sample_db 50 20 10 in_progress in
  let r := settle_concurrently (Some 1%N) (Some 2%N) 5 6 7%N db in
  snd (fst r) = swap_completed /\
  snd r = swap_completed /\
  profiles (fst (fst r)) !! 1%N ≫= credits = Some 70 /\
  profiles (fst (fst r)) !! 2%N ≫= credits = Some 0 /\
  swaps (fst (fst r)) !! 7%N ≫= status = Some completed /\
  length (payments_for 7%N (fst (fst r))) = 2%nat.
Proof. by_evaluation. Qed.

(** ** Provisioning *)

(** What a completed run of the trigger function did. *)
Lemma handle_new_user_ok NEW now db db1 :
  handle_new_user NEW now db = ok db1 ->
  exists e, user_email NEW = Some e /\
  swaps db1 = swaps db /\ transactions db1 = transactions db /\
  ((exists p,
      profiles db !! user_id NEW = Some p /\
      profiles db1
        = <[user_id NEW :=
              set_names (COALESCE (excluded_full_name NEW) (full_name p))
                (COALESCE (excluded_avatar_url NEW) (avatar_url p)) now p]>
            (profiles db)) \/
   (profiles db !! user_id NEW = None /\
    email_taken e (profiles db) = false /\
    profiles db1
      = <[user_id NEW :=
            default_profile e (excluded_full_name NEW)
              (excluded_avatar_url NEW) now]> (profiles db))).
Proof.
  unfold handle_new_user.
  destruct (user_email NEW) as [e|]; [|discriminate].
  destruct (profiles db !! user_id NEW) as [p|] eqn:Hp.
  - intros [= <-]. exists e. repeat split. left. by exists p.
  - destruct (email_taken e (profiles db)) eqn:He; [discriminate|].
    intros [= <-]. exists e. repeat split. by right.
Qed.

(** A completed profile insert of the client added one default row under
    an id that had none. *)
Lemma insert_profile_ok uid k e fn now db db1 :
  insert_profile uid k e fn now db = ok db1 ->
  profiles db !! k = None /\
  db1 = with_profiles (<[k := default_profile e fn None now]> (profiles db)) db.
Proof.
  unfold insert_profile.
  destruct (is_true _); [|discriminate].
  destruct (profiles db !! k); [discriminate|].
  destruct (email_taken e (profiles db)); [discriminate|].
  by intros [= <-].
Qed.





(** C10.  A run of the provisioning trigger for an identity that has no
    profile yet, with an e-mail address that no profile holds, completes
    and creates a profile with credits = 100, skills_taught = 0,
    skills_learned = 0, average_rating = 0.0 and total_reviews = 0; so does
    a completed profile insert of the client's signUp.  And no run of
    either, whatever its input, adds, removes or changes a ledger row: no
    signup_bonus entry is written. *)
Theorem provisioned_profile_defaults (NEW : auth_user) (now : Z) (db : DB)
    (e : string) :
  profiles db !! user_id NEW = None ->
  user_email NEW = Some e ->
  email_taken e (profiles db) = false ->
  (exists db1 p,
     handle_new_user NEW now db = ok db1 /\
     profiles db1 !! user_id NEW = Some p /\
     credits p = Some 100 /\ skills_taught p = Some 0 /\
     skills_learned p = Some 0 /\
     average_rating p = Some 0 /\ total_reviews p = Some 0 /\
     transactions db1 = transactions db) /\
  (forall NEW' now' db' db1',
     handle_new_user NEW' now' db' = ok db1' ->
     transactions db1' = transactions db') /\
  (forall uid k e' fn now' db' db1',
     insert_profile uid k e' fn now' db' = ok db1' ->
     transactions db1' = transactions db' /\
     exists p,
       profiles db1' !! k = Some p /\
       credits p = Some 100 /\ skills_taught p = Some 0 /\
       skills_learned p = Some 0 /\
       average_rating p = Some 0 /\ total_reviews p = Some 0).
Proof.
  intros Hnone He Hfree. split; [|split].
  - unfold handle_new_user. rewrite He, Hnone, Hfree.
    eexists _, _. split; [reflexivity|]. simpl.
    rewrite lookup_insert_eq. by repeat split.
  - by intros NEW' now' db' db1' (_ & _ & _ & -> & _)%handle_new_user_ok.
  - intros uid k e' fn now' db' db1' [_ ->]%insert_profile_ok.
    split; [done|]. eexists. simpl.
    rewrite lookup_insert_eq. by repeat split.
Qed.

(** A first login on the sample database. *)
Lemma provisioned_profile_defaults_witness :
  let NEW := mkAuthUser 5%N (Some "ada@example.org") {["name" := "Ada"]} in
  exists db1 p,
    handle_new_user NEW 3 (sample_db 50 20 10 pending) = ok db1 /\
    profiles db1 !! 5%N = Some p /\ credits p = Some 100 /\
    transactions db1 = [].
Proof.
  intros NEW.
  destruct (provisioned_profile_defaults NEW 3 (sample_db 50 20 10 pending)
              "ada@example.org")
    as [(db1 & p & H & Hp & Hc & _ & _ & _ & _ & Ht) _];
    [by_evaluation|by_evaluation|by_evaluation|].
  exists db1, p. repeat split; done.
Defined.

(** * Further properties of the modelled code *)

(** ** The schema's constraints after a call *)

Lemma debit_learner_profile_ok c p p' :
  profile_ok p = true -> debit_learner c p = ok p' ->
  (forall x, credits p' = Some x -> 0 <= x) ->
  profile_ok p' = true.
Proof.
  rewrite !profile_ok_spec. intros (Hc & Ht & Hl) [-> Hr]%debit_learner_ok Hpos.
  simpl in *. split; [|by split].
  intros x Hx. specialize (Hpos x Hx).
  destruct (credits p) as [y|]; [|discriminate].
  simpl in Hx. injection Hx as <-. specialize (Hr y eq_refl). lia.
Qed.

Lemma credit_teacher_profile_ok c p p' :
  profile_ok p = true -> credit_teacher c p = ok p' ->
  (forall x, credits p' = Some x -> 0 <= x) ->
  profile_ok p' = true.
Proof.
  rewrite !profile_ok_spec.
  intros (Hc & Ht & Hl) (-> & Hr & Hn)%credit_teacher_ok Hpos.
  simpl in *. split; [|split; [|done]].
  - intros x Hx. specialize (Hpos x Hx).
    destruct (credits p) as [y|]; [|discriminate].
    simpl in Hx. injection Hx as <-. specialize (Hr y eq_refl). lia.
  - intros n Hn'.
    destruct (skills_taught p) as [m|]; [|discriminate].
    simpl in Hn'. injection Hn' as <-. by apply Hn.
Qed.

Lemma count_learned_profile_ok p p' :
  profile_ok p = true -> count_learned p = ok p' ->
  (forall x, credits p' = Some x -> 0 <= x) ->
  profile_ok p' = true.
Proof.
  rewrite !profile_ok_spec. intros (Hc & Ht & Hl) [-> Hr]%count_learned_ok _.
  simpl in *. split; [done|split; [done|]].
  intros n Hn.
  destruct (skills_learned p) as [m|]; [|discriminate].
  simpl in Hn. injection Hn as <-. by apply Hr.
Qed.

(** Completing a swap and logging the payment keep the schema invariants
    and do not touch [profiles]. *)
Lemma complete_and_log_db_ok t now k db :
  db_ok db ->
  db_ok (insert_transaction t (update_swaps (complete_swap now) k db)).
Proof.
  intros [Hps Hss]. split; [done|]. simpl.
  intros j s. rewrite lookup_alter.
  case_decide as Hj; [subst j|by apply Hss].
  destruct (swaps db !! k) as [s0|] eqn:Hk; [|discriminate].
  intros [= <-]. by apply (Hss k s0).
Qed.

(** The schema invariants hold again after any call. *)
Lemma handle_swap_completion_db_ok uid now k db :
  db_ok db -> db_ok (fst (handle_swap_completion uid now k db)).
Proof.
  intros Hok.
  destruct (handle_swap_completion_cases uid now k db)
    as [[_ ->]|[_ (s & Hs & _ & Ht)]]; [done|].
  apply transfer_credits_ok in Ht
    as [[? _]|[_ (db1 & db2 & db3 & H1 & H2 & H3 & ->)]]; [discriminate|].
  apply complete_and_log_db_ok.
  eapply update_profiles_db_ok; [apply count_learned_profile_ok| |done].
  eapply update_profiles_db_ok; [apply credit_teacher_profile_ok| |done].
  eapply update_profiles_db_ok; [apply debit_learner_profile_ok|done|done].
Qed.


(** ** What a settlement call leaves alone *)

Lemma update_profiles_frame assign k db db' j :
  update_profiles assign k db = ok db' -> j <> k ->
  profiles db' !! j = profiles db !! j.
Proof.
  intros (_ & _ & [[_ ->]|(p & p' & _ & _ & _ & ->)])%update_profiles_ok Hj;
    [done|].
  by rewrite lookup_insert_ne.
Qed.

Lemma update_profiles_dom assign k db db' :
  update_profiles assign k db = ok db' ->
  dom (profiles db') = dom (profiles db).
Proof.
  intros (_ & _ & [[_ ->]|(p & p' & Hp & _ & _ & ->)])%update_profiles_ok;
    [done|].
  by apply dom_insert_lookup_L.
Qed.

(** X1.  Whatever the caller, the clock and the swap, a call of
    handle_swap_completion creates and deletes no profile and no swap, leaves
    every swap other than the one named and every profile other than that
    swap's teacher and learner exactly as they were, changes of the named
    swap only status and updated_at, and either leaves the ledger as it was
    or appends the one payment row to it. *)
Theorem settle_frame (uid : option N) (now : Z) (k : N) (db : DB) :
  let db' := fst (handle_swap_completion uid now k db) in
  dom (profiles db') = dom (profiles db) /\
  dom (swaps db') = dom (swaps db) /\
  (forall j, j <> k -> swaps db' !! j = swaps db !! j) /\
  (forall s, swaps db !! k = Some s ->
     (swaps db' !! k = Some s \/ swaps db' !! k = Some (complete_swap now s)) /\
     (forall j, j <> teacher_id s -> j <> learner_id s ->
        profiles db' !! j = profiles db !! j) /\
     (transactions db' = transactions db \/
      transactions db' = transactions db ++ [payment k s now])) /\
  (swaps db !! k = None -> db' = db).
Proof.
  simpl.
  destruct (handle_swap_completion_cases uid now k db)
    as [[_ ->]|[_ (s & Hs & _ & Ht)]].
  { repeat split; auto. }
  pose proof (transfer_credits_completed _ _ _ _ _ Ht) as [Hsw Htx].
  apply transfer_credits_ok in Ht as [[Hr _]|[_ Hrun]]; [discriminate Hr|].
  destruct Hrun as (db1 & db2 & db3 & H1 & H2 & H3 & Heq).
  assert (profiles (fst (handle_swap_completion uid now k db)) = profiles db3)
    as Hps by (by rewrite Heq).
  split; [|split; [|split; [|split]]].
  - rewrite Hps, (update_profiles_dom _ _ _ _ H3),
      (update_profiles_dom _ _ _ _ H2). by eapply update_profiles_dom.
  - rewrite Hsw. apply dom_alter_L.
  - intros j Hj. rewrite Hsw. by apply lookup_alter_ne.
  - intros s' Hs'. assert (s' = s) as -> by congruence.
    split; [|split].
    + right. by rewrite Hsw, lookup_alter_eq, Hs.
    + intros j Hjt Hjl.
      rewrite Hps, (update_profiles_frame _ _ _ _ j H3) by done.
      rewrite (update_profiles_frame _ _ _ _ j H2) by done.
      by apply (update_profiles_frame _ _ _ _ j H1).
    + by right.
  - congruence.
Qed.

(** X2.  No negative balance: starting from a database that satisfies the
    schema's constraints, after any sequence of calls the constraints hold
    again: every balance that is not NULL is between 0 and 2147483647, and
    every swap still refers to existing profiles. *)
Theorem settlement_never_overdraws
    (calls : list (option N * Z * N)) (db : DB) :
  db_ok db ->
  db_ok (settle_all calls db) /\
  forall j p c, profiles (settle_all calls db) !! j = Some p ->
                credits p = Some c -> 0 <= c <= int4_max.
Proof.
  intros Hok.
  assert (db_ok (settle_all calls db)) as Hok'.
  { revert db Hok. induction calls as [|[[uid now] k] rest IH]; intros db Hok;
      [done|].
    simpl. by apply IH, handle_swap_completion_db_ok. }
  split; [done|]. intros j p c Hj Hc. destruct Hok' as [Hps _].
  by apply (proj1 (profile_ok_spec p) (Hps j p Hj)).
Qed.

(** The learner of the sample pays 10 twice over two swaps and is refused
    the third time. *)
Lemma settlement_never_overdraws_witness :
  let db :=
    mkDB (<[1%N := sample_profile "teacher@example.org" 50]>
            (<[2%N := sample_profile "learner@example.org" 20]> ∅))
         (<[7%N := mkSwap 9%N 1%N 2%N (Some in_progress) 2 10 0 0]>
            (<[8%N := mkSwap 9%N 1%N 2%N (Some in_progress) 2 10 0 0]>
               (<[6%N := mkSwap 9%N 1%N 2%N (Some in_progress) 2 10 0 0]> ∅)))
         [] in
  let calls := [(Some 2%N, 5, 7%N); (Some 2%N, 6, 8%N); (Some 2%N, 7, 6%N)] in
  exists p c, profiles (settle_all calls db) !! 2%N = Some p /\
              credits p = Some c /\ 0 <= c <= int4_max.
Proof.
  intros db calls.
  destruct (profiles (settle_all calls db) !! 2%N) as [p|] eqn:Hp;
    [|by vm_compute in Hp].
  destruct (credits p) as [c|] eqn:Hc; [|by vm_compute in Hp; injection Hp as <-].
  exists p, c. split; [done|]. split; [done|].
  apply (proj2 (settlement_never_overdraws calls db ltac:(db_ok_by_evaluation))
           2%N p c Hp Hc).
Defined.

(** ** Payments over a sequence of calls *)

Lemma payments_for_payment k k0 s now db :
  payments_for k (with_transactions (transactions db ++ [payment k0 s now]) db)
    = payments_for k db ++ (if decide (k0 = k) then [payment k0 s now] else []).
Proof.
  unfold payments_for; simpl. rewrite filter_app. f_equal.
  case_decide as Hk.
  - rewrite filter_cons_True by (simpl; congruence). by rewrite filter_nil.
  - rewrite filter_cons_False by (simpl; congruence). by rewrite filter_nil.
Qed.

Lemma handle_swap_completion_ledger_ok uid now k0 db :
  ledger_ok db -> ledger_ok (fst (handle_swap_completion uid now k0 db)).
Proof.
  intros Hinv.
  destruct (handle_swap_completion_cases uid now k0 db)
    as [[_ ->]|[_ (s & Hs & Hst & Ht)]]; [done|].
  apply transfer_credits_completed in Ht as [Hsw Htx].
  intros k. destruct (Hinv k) as [Hlen Hnone].
  assert (payments_for k (fst (handle_swap_completion uid now k0 db))
          = payments_for k db ++
            (if decide (k0 = k) then [payment k0 s now] else [])) as Hpay.
  { rewrite <- payments_for_payment. unfold payments_for. by rewrite Htx. }
  rewrite Hpay, Hsw. case_decide as Hk.
  - subst k0. pose proof (Hnone s Hs Hst) as Hempty. rewrite Hempty.
    split; [simpl; lia|].
    intros s'. rewrite lookup_alter_eq, Hs. intros [= <-].
    by intros [[=]|[=]].
  - rewrite app_nil_r. split; [exact Hlen|].
    intros s'. rewrite lookup_alter_ne by done. apply Hnone.
Qed.

(** X3.  At most one payment per swap, over any sequence of calls: if no
    swap has two payment rows and no swap that is in progress or has a NULL
    status has one, the same holds after any sequence of calls of
    handle_swap_completion, by any callers in any order. *)
Theorem settle_pays_each_swap_at_most_once
    (calls : list (option N * Z * N)) (db : DB) :
  ledger_ok db -> ledger_ok (settle_all calls db).
Proof.
  revert db. induction calls as [|[[uid now] k] rest IH]; intros db Hinv;
    [done|].
  simpl. by apply IH, handle_swap_completion_ledger_ok.
Qed.

(** Three calls on the same swap, starting from an empty ledger. *)
Lemma settle_pays_each_swap_at_most_once_witness :
  let db := sample_db 50 40 10 in_progress in
  let calls := [(Some 2%N, 5, 7%N); (Some 1%N, 6, 7%N); (Some 2%N, 7, 7%N)] in
  (length (payments_for 7%N (settle_all calls db)) <= 1)%nat.
Proof.
  intros db calls.
  apply (settle_pays_each_swap_at_most_once calls db).
  intros k. split; [simpl; lia|done].
Defined.

(** ** A caller without identity *)

(** X4.  A call with no authenticated user, for which auth.uid() is NULL,
    is not refused by the authorization test: on every database and for
    every existing swap it has the result and the effect of the same call
    made by the swap's teacher. *)
Theorem settle_unauthenticated_as_teacher (now : Z) (k : N) (db : DB)
    (s : Swap) :
  swaps db !! k = Some s ->
  handle_swap_completion None now k db
    = handle_swap_completion (Some (teacher_id s)) now k db.
Proof.
  intros Hs. unfold handle_swap_completion. rewrite Hs.
  destruct (is_true (sql_ne_status _ _)); [done|].
  by rewrite (authorized_participant (teacher_id s) s) by auto.
Qed.

Lemma settle_unauthenticated_as_teacher_witness :
  let db := sample_db 50 20 10 in_progress in
  handle_swap_completion None 5 7%N db
    = handle_swap_completion (Some 1%N) 5 7%N db.
Proof.
  intros db.
  apply (settle_unauthenticated_as_teacher 5 7%N db
           (mkSwap 9%N 1%N 2%N (Some in_progress) 2 10 0 0)).
  by_evaluation.
Defined.

(** ** Status updates composed with each other and with settlement *)

Lemma set_status_back st s : set_status (status s) (set_status st s) = s.
Proof. by destruct s. Qed.

(** X5.  A status update leaves everything but the status alone, updated_at
    included: when a participant changes the status of a swap and then
    changes it back, the database is exactly the one before. *)
Theorem status_update_round_trip (a : N) (st : option swap_status) (k : N)
    (db db1 : DB) (s : Swap) :
  swaps db !! k = Some s ->
  a = teacher_id s \/ a = learner_id s ->
  update_swap_status (Some a) st k db = ok db1 ->
  update_swap_status (Some a) (status s) k db1 = ok db.
Proof.
  intros Hs Ha. rewrite (update_swap_status_participant a st k db s) by done.
  intros [= <-].
  rewrite (update_swap_status_participant a (status s) k _ (set_status st s));
    [|by simpl; rewrite lookup_insert_eq|done].
  f_equal. destruct db as [ps ss ts]; unfold with_swaps; simpl in *.
  by rewrite insert_insert_eq, set_status_back, insert_id.
Qed.

Lemma status_update_round_trip_witness :
  let db := sample_db 50 20 10 accepted in
  exists db1,
    update_swap_status (Some 1%N) (Some cancelled) 7%N db = ok db1 /\
    update_swap_status (Some 1%N) (Some accepted) 7%N db1 = ok db.
Proof.
  intros db.
  destruct (update_swap_status (Some 1%N) (Some cancelled) 7%N db)
    as [db1|] eqn:H;
    [|by vm_compute in H].
  exists db1. split; [done|].
  apply (status_update_round_trip 1%N (Some cancelled) 7%N db db1
           (mkSwap 9%N 1%N 2%N (Some accepted) 2 10 0 0));
    [by_evaluation|left; by_evaluation|exact H].
Defined.

(** X6.  A plain update by which a participant sets the status of a swap
    to one of the five values other than in_progress (completed included)
    moves no credits and writes no ledger row; and on the database right
    after that update, a call of handle_swap_completion on the swap, by
    anybody at any time, answers 'Swap is not in progress' and changes
    nothing. *)
Theorem status_update_moves_no_credits (a : N) (st : swap_status) (k : N)
    (db db1 : DB) (s : Swap) :
  swaps db !! k = Some s ->
  a = teacher_id s \/ a = learner_id s ->
  st <> in_progress ->
  update_swap_status (Some a) (Some st) k db = ok db1 ->
  profiles db1 = profiles db /\
  transactions db1 = transactions db /\
  swaps db1 !! k ≫= status = Some st /\
  forall uid now,
    handle_swap_completion uid now k db1
      = (db1, failure "Swap is not in progress").
Proof.
  intros Hs Ha Hst.
  rewrite (update_swap_status_participant a (Some st) k db s) by done.
  intros [= <-]. simpl. rewrite lookup_insert_eq. repeat split.
  intros uid now. unfold handle_swap_completion; simpl.
  rewrite lookup_insert_eq. cbn [status set_status].
  by rewrite status_test_stops.
Qed.

(** The teacher marks the swap completed by hand; the learner keeps the 20
    credits and a later call is refused. *)
Lemma status_update_moves_no_credits_witness :
  let db := sample_db 50 20 10 in_progress in
  exists db1,
    update_swap_status (Some 1%N) (Some completed) 7%N db = ok db1 /\
    profiles db1 = profiles db /\
    handle_swap_completion (Some 2%N) 5 7%N db1
      = (db1, failure "Swap is not in progress").
Proof.
  intros db.
  destruct (update_swap_status (Some 1%N) (Some completed) 7%N db)
    as [db1|] eqn:H;
    [|by vm_compute in H].
  exists db1. split; [done|].
  destruct (status_update_moves_no_credits 1%N completed 7%N db db1
              (mkSwap 9%N 1%N 2%N (Some in_progress) 2 10 0 0))
    as (Hp & _ & _ & Hc); [by_evaluation|left; by_evaluation|done|exact H|].
  split; [done|apply Hc].
Defined.

(** X7.  The guard against a second settlement rests on the status alone.
    After a successful call, once the swap's status has been set back to
    in_progress by a plain update, a further call is not refused as a
    repetition; when it succeeds, the ledger holds two more payment rows
    for the swap than before the first call. *)
Theorem settle_again_after_reopen (uid uid' uid'' : option N) (now now' : Z)
    (k : N) (db db2 : DB) :
  succeeded (snd (handle_swap_completion uid now k db)) = true ->
  update_swap_status uid' (Some in_progress) k
    (fst (handle_swap_completion uid now k db)) = ok db2 ->
  succeeded (snd (handle_swap_completion uid'' now' k db2)) = true ->
  length (payments_for k (fst (handle_swap_completion uid'' now' k db2)))
    = (length (payments_for k db) + 2)%nat.
Proof.
  intros (s & Hs & _ & Ht)%handle_swap_completion_success Hup
    (s2 & Hs2 & _ & Ht2)%handle_swap_completion_success.
  apply transfer_credits_completed in Ht as [_ Htx].
  apply transfer_credits_completed in Ht2 as [_ Htx2].
  assert (transactions db2
          = transactions (fst (handle_swap_completion uid now k db))) as Hsame.
  { revert Hup. unfold update_swap_status.
    destruct (swaps (fst (handle_swap_completion uid now k db)) !! k) as [s1|];
      [|by intros [= <-]].
    destruct (is_true (users_can_update_their_swaps uid' s1));
      [|by intros [= <-]].
    destruct (is_true _); [|discriminate]. by intros [= <-]. }
  unfold payments_for. rewrite Htx2, Hsame, Htx, !filter_app.
  rewrite !filter_cons_True by done. rewrite !filter_nil, !length_app.
  simpl. lia.
Qed.

(** Price 10, teacher at 50, learner at 20: settled, reopened by the
    teacher, settled again. *)
Lemma settle_again_after_reopen_witness :
  let db := sample_db 50 20 10 in_progress in
  exists db2,
    update_swap_status (Some 1%N) (Some in_progress) 7%N
      (fst (handle_swap_completion (Some 2%N) 5 7%N db)) = ok db2 /\
    length (payments_for 7%N (fst (handle_swap_completion (Some 1%N) 6 7%N db2)))
      = 2%nat.
Proof.
  intros db.
  destruct (update_swap_status (Some 1%N) (Some in_progress) 7%N
              (fst (handle_swap_completion (Some 2%N) 5 7%N db)))
    as [db2|] eqn:Hup; [|by vm_compute in Hup].
  exists db2. split; [done|].
  pose proof Hup as Hdb2. vm_compute in Hdb2. injection Hdb2 as Hdb2.
  rewrite (settle_again_after_reopen (Some 2%N) (Some 1%N) (Some 1%N) 5 6 7%N
             db db2 ltac:(by_evaluation) Hup); [by_evaluation|].
  rewrite <- Hdb2. by_evaluation.
Defined.


(** ** Provisioning: credits created and the name chosen *)

(** The trigger completes unless the e-mail address is missing or, for a
    new id, already held by a profile. *)
Lemma handle_new_user_completes NEW now db e :
  user_email NEW = Some e ->
  is_Some (profiles db !! user_id NEW) \/ email_taken e (profiles db) = false ->
  exists db1, handle_new_user NEW now db = ok db1.
Proof.
  intros He Hcond. unfold handle_new_user. rewrite He.
  destruct (profiles db !! user_id NEW) as [p|] eqn:Hp; [eauto|].
  destruct Hcond as [[? [=]]| ->]. eauto.
Qed.

Lemma sum_credits_insert_fresh (ps : gmap N Profile) k p ss ts :
  ps !! k = None ->
  sum_credits (mkDB (<[k := p]> ps) ss ts)
    = sum_credits (mkDB ps ss ts) + default 0 (credits p).
Proof.
  intros Hk. unfold sum_credits; simpl.
  rewrite map_fold_insert_L; [lia|intros; lia|done].
Qed.

Lemma swap_ok_insert (ps : gmap N Profile) k p s :
  swap_ok ps s = true -> swap_ok (<[k := p]> ps) s = true.
Proof.
  rewrite !swap_ok_spec, !lookup_insert_is_Some.
  intros ([] & [] & ?). repeat split; try lia;
    [destruct (decide (k = teacher_id s))|destruct (decide (k = learner_id s))];
    eauto.
Qed.

(** X8.  Provisioning is where credits enter the system: a run of the
    trigger that creates a profile raises the sum of all balances by
    exactly 100, a run that finds the profile already there leaves the sum
    as it is, and in both cases the schema's constraints hold afterwards if
    they held before. *)
Theorem provisioning_grants_100 (NEW : auth_user) (now : Z) (db : DB)
    (e : string) :
  user_email NEW = Some e ->
  is_Some (profiles db !! user_id NEW) \/ email_taken e (profiles db) = false ->
  exists db1,
    handle_new_user NEW now db = ok db1 /\
    sum_credits db1
      = sum_credits db +
        match profiles db !! user_id NEW with Some _ => 0 | None => 100 end /\
    (db_ok db -> db_ok db1).
Proof.
  intros He Hcond.
  destruct (handle_new_user_completes NEW now db e He Hcond) as [db1 Hrun].
  exists db1. split; [done|].
  apply handle_new_user_ok in Hrun as (e1 & _ & Hsw & Htx & Hcase).
  destruct db as [ps ss ts], db1 as [ps1 ss1 ts1]; simpl in *; subst.
  destruct Hcase as [(p & Hp & ->)|(Hp & _ & ->)]; rewrite Hp; split.
  - rewrite (sum_credits_insert ps _ p) by done. simpl. lia.
  - intros [Hps Hss]. split; simpl in *.
    + apply map_Forall_insert_2; [|done]. apply (Hps _ _ Hp).
    + intros j s Hj. apply swap_ok_insert, (Hss j s Hj).
  - by rewrite sum_credits_insert_fresh.
  - intros [Hps Hss]. split; simpl in *.
    + by apply map_Forall_insert_2.
    + intros j s Hj. apply swap_ok_insert, (Hss j s Hj).
Qed.

(** A third profile on the sample: 70 credits become 170. *)
Lemma provisioning_grants_100_witness :
  let NEW := mkAuthUser 5%N (Some "ada@example.org") ∅ in
  let db := sample_db 50 20 10 pending in
  exists db1, handle_new_user NEW 3 db = ok db1 /\ sum_credits db1 = 170.
Proof.
  intros NEW db.
  destruct (provisioning_grants_100 NEW 3 db "ada@example.org")
    as (db1 & Hrun & Hsum & _); [by_evaluation|right; by_evaluation|].
  exists db1. split; [done|]. rewrite Hsum. by_evaluation.
Defined.

(** X9.  The name of a provisioned profile is never NULL and is chosen in a
    fixed order of preference: the metadata member full_name, else the
    member name, else the part of the e-mail address before its first at
    sign.  This holds for a new profile and for one that existed, whose
    present name is therefore replaced at every run. *)
Theorem provisioned_full_name (NEW : auth_user) (now : Z) (db : DB)
    (e : string) :
  user_email NEW = Some e ->
  is_Some (profiles db !! user_id NEW) \/ email_taken e (profiles db) = false ->
  exists db1 p,
    handle_new_user NEW now db = ok db1 /\
    profiles db1 !! user_id NEW = Some p /\
    full_name p
      = Some match raw_user_meta_data NEW !! "full_name" with
             | Some n => n
             | None =>
                 match raw_user_meta_data NEW !! "name" with
                 | Some n => n
                 | None => split_part e at_sign
                 end
             end.
Proof.
  intros He Hcond.
  destruct (handle_new_user_completes NEW now db e He Hcond) as [db1 Hrun].
  exists db1.
  assert (excluded_full_name NEW
          = Some match raw_user_meta_data NEW !! "full_name" with
                 | Some n => n
                 | None =>
                     match raw_user_meta_data NEW !! "name" with
                     | Some n => n
                     | None => split_part e at_sign
                     end
                 end) as Hname.
  { unfold excluded_full_name. rewrite He. simpl.
    destruct (raw_user_meta_data NEW !! "full_name"); [done|].
    by destruct (raw_user_meta_data NEW !! "name"). }
  apply handle_new_user_ok in Hrun as Hcase.
  destruct Hcase as (e1 & _ & _ & _ & [(p & Hp & Hps)|(Hp & _ & Hps)]);
    eexists; (split; [exact Hrun|]); rewrite Hps, lookup_insert_eq;
    (split; [reflexivity|]); unfold default_profile, set_names; cbn [full_name];
    by rewrite Hname.
Qed.

(** A new profile is named after the address when the identity's metadata
    carries no name. *)
Lemma provisioned_full_name_witness :
  let db := sample_db 50 20 10 pending in
  let NEW := mkAuthUser 5%N (Some "ada@example.org") ∅ in
  exists db1 p,
    handle_new_user NEW 9 db = ok db1 /\
    profiles db1 !! 5%N = Some p /\ full_name p = Some "ada".
Proof.
  intros db NEW.
  destruct (provisioned_full_name NEW 9 db "ada@example.org")
    as (db1 & p & Hrun & Hp & Hname);
    [by_evaluation|right; by_evaluation|].
  exists db1, p. by repeat split.
Defined.

(** X10.  [split_part s delim] is the text of [s] before the first
    occurrence of [delim]: it is a prefix of [s] that does not contain
    [delim], it is followed in [s] by [delim] or by nothing, and it is [s]
    itself when [delim] does not occur. *)
Theorem split_part_first_field (s : string) (delim : ascii) :
  ~ In delim (list_ascii_of_string (split_part s delim)) /\
  (exists rest,
     s = (split_part s delim ++ rest)%string /\
     (rest = "" \/ exists r, rest = String delim r)) /\
  (~ In delim (list_ascii_of_string s) -> split_part s delim = s).
Proof.
  induction s as [|c s (IHnot & (rest & IHeq & IHrest) & IHid)]; simpl.
  - repeat split; [tauto|exists ""; auto].
  - case_bool_decide as Hc; simpl.
    + subst c. repeat split; [tauto|exists (String delim s); eauto|tauto].
    + repeat split.
      * intros [?|?]; [congruence|tauto].
      * exists rest. split; [|done].
        change (String c s = String c (split_part s delim ++ rest)%string).
        by f_equal.
      * intros Hnot. f_equal. apply IHid. tauto.
Qed.

(** ** Reviews *)

Lemma completed_swap_of_spec (a : N) (k : N) (db : DB) :
  completed_swap_of (Some a) k db = true <->
  exists s, swaps db !! k = Some s /\ status s = Some completed /\
            (a = teacher_id s \/ a = learner_id s).
Proof.
  unfold completed_swap_of. destruct (swaps db !! k) as [s|]; simpl.
  - unfold sql_eq, sql_eq_status. split.
    + intros H. exists s. split; [done|].
      destruct (status s) as [st|]; simpl in H;
        repeat case_bool_decide; simpl in H; try discriminate; subst; auto.
    + intros (s' & [= <-] & Hst & Ha). rewrite Hst. simpl.
      destruct Ha as [->| ->]; repeat case_bool_decide; simpl; congruence.
  - split; [discriminate|]. by intros (s & [=] & _).
Qed.

Lemma review_policy_spec (uid : option N) (r : Review) (db : DB) :
  is_true (users_can_create_reviews_for_their_swaps uid r db) = true <->
  uid = Some (reviewer_id r) /\
  exists s, swaps db !! review_swap_id r = Some s /\
            status s = Some completed /\
            (reviewer_id r = teacher_id s \/ reviewer_id r = learner_id s).
Proof.
  unfold users_can_create_reviews_for_their_swaps, sql_eq.
  destruct uid as [a|]; simpl.
  - case_bool_decide as Ha; simpl.
    + subst a.
      destruct (completed_swap_of (Some (reviewer_id r)) (review_swap_id r) db)
        eqn:Hc; simpl.
      * apply completed_swap_of_spec in Hc. by split.
      * split; [discriminate|]. intros [_ Hs].
        apply completed_swap_of_spec in Hs. congruence.
    + split.
      * by destruct (completed_swap_of (Some a) (review_swap_id r) db).
      * intros [[= ->] _]. done.
  - split; [|by intros [[=] _]].
    by destruct (completed_swap_of None (review_swap_id r) db).
Qed.

Lemma insert_review_inr_inv (uid : option N) (r : Review) (db : DB)
    (reviews reviews' : list Review) :
  insert_review uid r db reviews = inr reviews' ->
  uid = Some (reviewer_id r) /\
  (exists s, swaps db !! review_swap_id r = Some s /\
             status s = Some completed /\
             (reviewer_id r = teacher_id s \/ reviewer_id r = learner_id s)) /\
  1 <= rating r <= 5 /\
  (review_key r ∉ (review_key <$> reviews)) /\
  is_Some (profiles db !! reviewer_id r) /\
  is_Some (profiles db !! reviewee_id r) /\
  reviews' = reviews ++ [r].
Proof.
  unfold insert_review.
  destruct (int4_range (rating r)); [|discriminate]. simpl.
  destruct (is_true _) eqn:Hpol; [|discriminate]. simpl.
  apply review_policy_spec in Hpol as [Huid Hs].
  destruct (1 <=? rating r) eqn:Hlo; [|discriminate].
  destruct (rating r <=? 5) eqn:Hhi; [|discriminate]. simpl.
  case_bool_decide as Hkey; [discriminate|].
  case_bool_decide as Hswap; [|discriminate]. simpl.
  case_bool_decide as Her; [|discriminate]. simpl.
  case_bool_decide as Hee; [|discriminate]. simpl.
  intros [= <-]. apply Z.leb_le in Hlo, Hhi. by repeat split.
Qed.

Lemma insert_review_accepted (r : Review) (db : DB) (reviews : list Review)
    (s : Swap) :
  swaps db !! review_swap_id r = Some s ->
  status s = Some completed ->
  reviewer_id r = teacher_id s \/ reviewer_id r = learner_id s ->
  1 <= rating r <= 5 ->
  review_key r ∉ (review_key <$> reviews) ->
  is_Some (profiles db !! reviewer_id r) ->
  is_Some (profiles db !! reviewee_id r) ->
  insert_review (Some (reviewer_id r)) r db reviews = inr (reviews ++ [r]).
Proof.
  intros Hs Hst Ha [Hlo Hhi] Hkey Her Hee. unfold insert_review.
  rewrite (proj2 (int4_range_spec _)) by int4_lia. simpl.
  rewrite (proj2 (review_policy_spec (Some (reviewer_id r)) r db)) by eauto 6.
  simpl. apply Z.leb_le in Hlo, Hhi. rewrite Hlo, Hhi. simpl.
  rewrite (bool_decide_eq_false_2 _ Hkey).
  rewrite (bool_decide_eq_true_2 (is_Some (swaps db !! review_swap_id r)))
    by eauto.
  by rewrite !bool_decide_eq_true_2.
Qed.

(** X11.  Who may review what.  An insert into reviews is accepted exactly
    when the caller is the reviewer named in the row, the swap named in the
    row exists, is completed and has the reviewer as its teacher or its
    learner, the rating is between 1 and 5, the reviewer has no review of
    that swap with that review_type yet, and the reviewer and the reviewee
    are existing profiles; the row is then appended.  Nothing relates the
    reviewee or the review_type to the swap. *)
Theorem insert_review_accepts_exactly (uid : option N) (r : Review) (db : DB)
    (reviews reviews' : list Review) :
  insert_review uid r db reviews = inr reviews' <->
  uid = Some (reviewer_id r) /\
  (exists s, swaps db !! review_swap_id r = Some s /\
             status s = Some completed /\
             (reviewer_id r = teacher_id s \/ reviewer_id r = learner_id s)) /\
  1 <= rating r <= 5 /\
  (review_key r ∉ (review_key <$> reviews)) /\
  is_Some (profiles db !! reviewer_id r) /\
  is_Some (profiles db !! reviewee_id r) /\
  reviews' = reviews ++ [r].
Proof.
  split; [apply insert_review_inr_inv|].
  intros (-> & (s & Hs & Hst & Ha) & Hrating & Hkey & Her & Hee & ->).
  by apply (insert_review_accepted r db reviews s).
Qed.

(** The learner of a completed swap rates themself as a teacher. *)
Lemma insert_review_accepts_exactly_witness :
  let r := mkReview 7%N 2%N 2%N 5 None as_teacher 8 in
  insert_review (Some 2%N) r (sample_db 60 10 10 completed) [] = inr [r].
Proof.
  intros r.
  apply (insert_review_accepts_exactly (Some 2%N) r
           (sample_db 60 10 10 completed) [] [r]).
  split; [done|]. split.
  - exists (mkSwap 9%N 1%N 2%N (Some completed) 2 10 0 0). repeat split; auto.
  - repeat split; [simpl; lia|simpl; lia|by apply not_elem_of_nil
                  |eexists; by_evaluation|eexists; by_evaluation].
Defined.

Lemma handle_swap_completion_is_Some uid now k db j :
  is_Some (profiles db !! j) ->
  is_Some (profiles (fst (handle_swap_completion uid now k db)) !! j).
Proof.
  intros Hj.
  destruct (handle_swap_completion_cases uid now k db)
    as [[_ ->]|[_ (s & _ & _ & Ht)]]; [done|].
  apply transfer_credits_ok in Ht as [[Hr _]|[_ Hrun]]; [discriminate Hr|].
  destruct Hrun as (db1 & db2 & db3 & H1 & H2 & H3 & ->). simpl.
  eapply update_profiles_is_Some; [exact H3|].
  eapply update_profiles_is_Some; [exact H2|].
  by eapply update_profiles_is_Some.
Qed.

(** X12.  Reviews open with the settlement.  While a swap is in progress
    no review of it is accepted from anybody; once a call of
    handle_swap_completion on it has succeeded, its teacher and its learner
    can each insert a review of it with a rating from 1 to 5 for any
    existing profile, as long as they have none of that review_type. *)
Theorem reviews_open_with_settlement (uid : option N) (now : Z) (k : N)
    (db : DB) (r : Review) (reviews : list Review) :
  db_ok db ->
  succeeded (snd (handle_swap_completion uid now k db)) = true ->
  review_swap_id r = k ->
  (forall uid' reviews', insert_review uid' r db reviews <> inr reviews') /\
  exists s,
    swaps db !! k = Some s /\
    (reviewer_id r = teacher_id s \/ reviewer_id r = learner_id s ->
     1 <= rating r <= 5 ->
     review_key r ∉ (review_key <$> reviews) ->
     is_Some (profiles db !! reviewee_id r) ->
     insert_review (Some (reviewer_id r)) r
       (fst (handle_swap_completion uid now k db)) reviews
       = inr (reviews ++ [r])).
Proof.
  intros [Hps Hss] (s & Hs & Hst & Ht)%handle_swap_completion_success <-.
  apply transfer_credits_completed in Ht as [Hsw _].
  split.
  - intros uid' reviews' (_ & (s' & Hs' & Hst' & _) & _)%insert_review_inr_inv.
    destruct Hst; congruence.
  - exists s. split; [done|]. intros Ha Hrating Hkey Hee.
    pose proof (proj1 (swap_ok_spec _ _) (Hss _ _ Hs))
      as (Hteacher & Hlearner & _).
    apply (insert_review_accepted r _ reviews (complete_swap now s));
      try done.
    + by rewrite Hsw, lookup_alter_eq, Hs.
    + apply handle_swap_completion_is_Some. by destruct Ha as [->| ->].
    + by apply handle_swap_completion_is_Some.
Qed.

(** The second scenario settled, then the teacher rates the learner. *)
Lemma reviews_open_with_settlement_witness :
  let db := sample_db 50 20 10 in_progress in
  let r := mkReview 7%N 1%N 2%N 4 None as_teacher 9 in
  insert_review (Some 1%N) r (fst (handle_swap_completion (Some 2%N) 5 7%N db)) []
    = inr [r].
Proof.
  intros db r.
  destruct (reviews_open_with_settlement (Some 2%N) 5 7%N db r [])
    as (_ & s & Hs & Hopen); [db_ok_by_evaluation|by_evaluation|done|].
  vm_compute in Hs. injection Hs as <-.
  apply Hopen; [by left|simpl; lia|by apply not_elem_of_nil
               |eexists; by_evaluation].
Defined.

Lemma NoDup_ReviewType (l : list ReviewType) : NoDup l -> (length l <= 2)%nat.
Proof.
  destruct l as [|a [|b [|c l]]]; simpl; try lia.
  rewrite !NoDup_cons, !not_elem_of_cons.
  intros ((Hab & Hac & _) & (Hbc & _) & _). exfalso.
  destruct a, b, c; congruence.
Qed.

Lemma reviews_of_pair_bounded (k a : N) (reviews : list Review) :
  NoDup (review_key <$> reviews) ->
  (length (filter (fun x => review_swap_id x = k /\ reviewer_id x = a) reviews)
   <= 2)%nat.
Proof.
  intros Hnd.
  set (F := filter (fun x => review_swap_id x = k /\ reviewer_id x = a) reviews).
  assert (NoDup (review_key <$> F)) as HF.
  { eapply sublist_NoDup; [exact Hnd|]. apply fmap_sublist, sublist_filter. }
  assert (review_key <$> F = (fun t => (k, a, t)) <$> (review_type <$> F)) as Hk.
  { rewrite <- list_fmap_compose. apply list_fmap_ext.
    intros i x [[<- <-] _]%list_elem_of_lookup_2%list_elem_of_filter. done. }
  rewrite Hk in HF. apply NoDup_fmap_1 in HF.
  apply NoDup_ReviewType in HF. by rewrite length_fmap in HF.
Qed.

(** X13.  One review per reviewer, swap and review_type: an accepted insert
    keeps the rows pairwise different in (swap_id, reviewer_id,
    review_type), so that a reviewer never has more than two reviews of the
    same swap. *)
Theorem reviews_stay_unique (uid : option N) (r : Review) (db : DB)
    (reviews reviews' : list Review) :
  NoDup (review_key <$> reviews) ->
  insert_review uid r db reviews = inr reviews' ->
  NoDup (review_key <$> reviews') /\
  forall k a,
    (length (filter (fun x => review_swap_id x = k /\ reviewer_id x = a)
               reviews') <= 2)%nat.
Proof.
  intros Hnd (_ & _ & _ & Hkey & _ & _ & ->)%insert_review_inr_inv.
  assert (NoDup (review_key <$> reviews ++ [r])) as Hnd'.
  { rewrite fmap_app. apply NoDup_app. split; [done|]. split.
    - intros x Hx [->|[]%elem_of_nil]%elem_of_cons. done.
    - apply NoDup_singleton. }
  split; [done|]. intros k a. by apply reviews_of_pair_bounded.
Qed.

(** The teacher of a completed swap adds the second of the two reviews the
    constraint allows. *)
Lemma reviews_stay_unique_witness :
  let db := sample_db 60 10 10 completed in
  let r1 := mkReview 7%N 1%N 2%N 4 None as_teacher 8 in
  let r2 := mkReview 7%N 1%N 2%N 5 None as_learner 9 in
  NoDup (review_key <$> [r1; r2]) /\
  insert_review (Some 1%N) r2 db [r1; r2]
    = inl (engine_error
             (unique_violation "reviews_swap_id_reviewer_id_review_type_key")).
Proof.
  intros db r1 r2. split; [|by_evaluation].
  apply (reviews_stay_unique (Some 1%N) r2 db [r1] [r1; r2]);
    [apply NoDup_singleton|by_evaluation].
Defined.

(** ** The balance column under the profile policy *)

(** X14.  The update policy of profiles protects rows, not columns.  The
    owner of a profile can set its balance to any value from 0 to
    2147483647, which changes the sum of all balances by the difference
    (a NULL balance counting as 0); a negative value is refused by the
    CHECK constraint; and an update issued by anybody else, or by nobody,
    changes nothing. *)
Theorem own_balance_is_writable (uid : option N) (v : Z) (k : N) (db : DB)
    (p : Profile) :
  profiles db !! k = Some p ->
  int4_min <= v <= int4_max ->
  (uid = Some k -> 0 <= v ->
     exists db',
       update_profile_credits uid (Some v) k db = ok db' /\
       profiles db' = <[k := set_credits (Some v) p]> (profiles db) /\
       swaps db' = swaps db /\ transactions db' = transactions db /\
       sum_credits db' = sum_credits db - default 0 (credits p) + v) /\
  (uid = Some k -> v < 0 ->
     update_profile_credits uid (Some v) k db
       = raise (check_violation "profiles" "profiles_credits_check")) /\
  (uid <> Some k -> update_profile_credits uid (Some v) k db = ok db).
Proof.
  intros Hp Hv. unfold update_profile_credits, int4_input.
  rewrite (int4_in_range v Hv). simpl. rewrite Hp.
  unfold users_can_update_own_profile, sql_eq. split; [|split].
  - intros -> Hv0. rewrite bool_decide_eq_true_2 by done. simpl.
    unfold profiles_check. simpl.
    rewrite (proj2 (Z.leb_le 0 v) Hv0). simpl.
    eexists. split; [reflexivity|]. repeat split.
    destruct db as [ps ss ts]. unfold with_profiles. simpl in *.
    by rewrite (sum_credits_insert ps k p).
  - intros -> Hv0. rewrite bool_decide_eq_true_2 by done. simpl.
    unfold profiles_check. simpl.
    by rewrite (proj2 (Z.leb_gt 0 v) Hv0).
  - intros Hne. destruct uid as [a|]; [|done].
    rewrite bool_decide_eq_false_2; [done|congruence].
Qed.

(** The learner of the sample raises their own balance from 20 to 5000. *)
Lemma own_balance_is_writable_witness :
  let db := sample_db 50 20 10 pending in
  exists db',
    update_profile_credits (Some 2%N) (Some 5000) 2%N db = ok db' /\
    sum_credits db' = 5050.
Proof.
  intros db.
  destruct (own_balance_is_writable (Some 2%N) 5000 2%N db
              (sample_profile "learner@example.org" 20))
    as ((db' & Hup & _ & _ & _ & Hsum) & _);
    [by_evaluation|int4_lia|done|lia|].
  exists db'. split; [done|]. rewrite Hsum. by_evaluation.
Defined.

(** ** SkillForm: the tag list *)

Lemma filter_none_removed (t : string) (l : list string) :
  t ∉ l -> filter (fun tag => tag <> t) l = l.
Proof.
  induction l as [|x l IH]; [done|].
  rewrite not_elem_of_cons. intros [Hx Hl].
  rewrite filter_cons_True by congruence. by rewrite IH.
Qed.

Lemma handleTagAdd_keeps trim key st :
  NoDup (tags st) -> (length (tags st) <= 5)%nat ->
  Forall (fun t => t <> "") (tags st) ->
  NoDup (tags (handleTagAdd trim key st)) /\
  (length (tags (handleTagAdd trim key st)) <= 5)%nat /\
  Forall (fun t => t <> "") (tags (handleTagAdd trim key st)).
Proof.
  intros Hnd Hlen Hne. unfold handleTagAdd.
  case_bool_decide as Hkey; simpl; [|done].
  case_bool_decide as Hempty; simpl; [done|].
  case_bool_decide as Hin; simpl; [done|].
  destruct (length (tags st) <? 5)%nat eqn:Hlt; simpl; [|done].
  apply Nat.ltb_lt in Hlt. split; [|split].
  - apply NoDup_app. split; [done|]. split; [|apply NoDup_singleton].
    intros x Hx [->|[]%elem_of_nil]%elem_of_cons. done.
  - rewrite length_app. simpl. lia.
  - apply Forall_app. split; [done|]. by apply Forall_singleton.
Qed.

Lemma handleTagRemove_keeps t st :
  NoDup (tags st) -> (length (tags st) <= 5)%nat ->
  Forall (fun t => t <> "") (tags st) ->
  NoDup (tags (handleTagRemove t st)) /\
  (length (tags (handleTagRemove t st)) <= 5)%nat /\
  Forall (fun t => t <> "") (tags (handleTagRemove t st)).
Proof.
  intros Hnd Hlen Hne. simpl. split; [|split].
  - by apply NoDup_filter.
  - pose proof (length_filter (fun tag => tag <> t) (tags st)). lia.
  - apply Forall_forall. intros x [_ Hx]%list_elem_of_filter.
    by apply (proj1 (Forall_forall _ _) Hne).
Qed.

(** X15.  The tag list of the skill form.  Starting from a list without
    duplicates, of at most five tags, none of them empty (the empty list of
    a fresh form in particular), any sequence of typing, key presses and
    removals leaves a list without duplicates, of at most five tags, none of
    them empty, whatever trim does. *)
Theorem tag_list_invariant (trim : string -> string) (events : list tag_event)
    (st : tag_state) :
  NoDup (tags st) -> (length (tags st) <= 5)%nat ->
  Forall (fun t => t <> "") (tags st) ->
  NoDup (tags (foldl (tag_step trim) st events)) /\
  (length (tags (foldl (tag_step trim) st events)) <= 5)%nat /\
  Forall (fun t => t <> "") (tags (foldl (tag_step trim) st events)).
Proof.
  revert st. induction events as [|ev events IH]; intros st Hnd Hlen Hne;
    [done|].
  simpl. destruct ev as [value|key|tag]; simpl.
  - by apply IH.
  - destruct (handleTagAdd_keeps trim key st) as (? & ? & ?); auto.
  - destruct (handleTagRemove_keeps tag st) as (? & ? & ?); auto.
Qed.

(** Six tags typed into a fresh form, one of them twice: five are kept. *)
Lemma tag_list_invariant_witness :
  let events :=
    [Change "a"; KeyDown "Enter"; Change "b"; KeyDown "Enter";
     Change "a"; KeyDown "Enter"; Change "c"; KeyDown "Enter";
     Change "d"; KeyDown "Enter"; Change "e"; KeyDown "Enter";
     Change "f"; KeyDown "Enter"] in
  let st := foldl (tag_step (fun s => s)) (mkTagState [] "") events in
  tags st = ["a"; "b"; "c"; "d"; "e"] /\ (length (tags st) <= 5)%nat.
Proof.
  intros events st. split; [by_evaluation|].
  apply (tag_list_invariant (fun s => s) events (mkTagState [] ""));
    [apply NoDup_nil_2|simpl; lia|apply Forall_nil_2].
Defined.

(** X16.  Adding and removing a tag.  Removing a tag leaves no occurrence
    of it and keeps the other tags in their order; and for a tag that is not
    in the list, pressing Enter on it and then removing it gives back the
    list as it was, whether or not the key press added it. *)
Theorem tag_add_remove_round_trip (trim : string -> string) (st : tag_state)
    (t : string) :
  (t ∉ tags (handleTagRemove t st)) /\
  (forall t', t' <> t ->
     filter (fun x => x = t') (tags (handleTagRemove t st))
       = filter (fun x => x = t') (tags st)) /\
  (trim (tagInput st) ∉ tags st ->
   tags (handleTagRemove (trim (tagInput st)) (handleTagAdd trim "Enter" st))
     = tags st).
Proof.
  split; [|split].
  - simpl. rewrite list_elem_of_filter. tauto.
  - intros t' Ht'. simpl. rewrite list_filter_filter.
    apply list_filter_iff. intros x. split; [tauto|]. intros ->. auto.
  - intros Hnot. unfold handleTagAdd, handleTagRemove.
    rewrite bool_decide_eq_true_2 by done. simpl.
    case_bool_decide as Hempty; simpl; [by rewrite filter_none_removed|].
    rewrite (bool_decide_eq_false_2 _ Hnot). simpl.
    destruct (length (tags st) <? 5)%nat; simpl.
    + rewrite filter_app, filter_none_removed by done.
      rewrite filter_cons_False by (intros H; by apply H).
      by rewrite filter_nil, app_nil_r.
    + by rewrite filter_none_removed.
Qed.

Lemma tag_add_remove_round_trip_witness :
  let st := mkTagState ["piano"; "jazz"] "  chords " in
  tags (handleTagRemove "chords" (handleTagAdd (fun _ => "chords") "Enter" st))
    = ["piano"; "jazz"].
Proof.
  intros st.
  destruct (tag_add_remove_round_trip (fun _ => "chords") st "chords")
    as (_ & _ & H).
  apply H. simpl. rewrite !not_elem_of_cons. repeat split; try discriminate.
  apply not_elem_of_nil.
Defined.

(** ** utils: formatRelativeTime *)

(** X17.  The text of a relative time, by the age [now - t] of the date in
    milliseconds.  Below one minute, and for every date in the future, it is
    'Just now'; from one minute to below one hour it is the whole minutes,
    a number from 1 to 59, followed by 'm ago'; from one hour to below one
    day the whole hours, from 1 to 23, followed by 'h ago'; from one day to
    below seven days the whole days, from 1 to 6, followed by 'd ago'; from
    seven days on, and for an invalid date, it is the formatted date. *)
Theorem formatRelativeTime_ranges (now t : Z) (formatDate : string) :
  let age := now - t in
  let text := formatRelativeTime now (Some t) formatDate in
  (age < 60000 -> text = "Just now") /\
  (60000 <= age < 3600000 ->
     1 <= age / 60000 <= 59 /\
     text = (pretty (age / 60000) ++ "m ago")%string) /\
  (3600000 <= age < 86400000 ->
     1 <= age / 3600000 <= 23 /\
     text = (pretty (age / 3600000) ++ "h ago")%string) /\
  (86400000 <= age < 604800000 ->
     1 <= age / 86400000 <= 6 /\
     text = (pretty (age / 86400000) ++ "d ago")%string) /\
  (604800000 <= age -> text = formatDate) /\
  formatRelativeTime now None formatDate = formatDate.
Proof.
  simpl. unfold formatRelativeTime.
  change (1000 * 60 * 60 * 24) with 86400000.
  change (1000 * 60 * 60) with 3600000.
  change (1000 * 60) with 60000.
  set (age := now - t).
  pose proof (Z.div_mod age 60000 ltac:(lia)) as Hm.
  pose proof (Z.mod_pos_bound age 60000 ltac:(lia)) as Hm'.
  pose proof (Z.div_mod age 3600000 ltac:(lia)) as Hh.
  pose proof (Z.mod_pos_bound age 3600000 ltac:(lia)) as Hh'.
  pose proof (Z.div_mod age 86400000 ltac:(lia)) as Hd.
  pose proof (Z.mod_pos_bound age 86400000 ltac:(lia)) as Hd'.
  repeat split.
  - intros Hage.
    by rewrite (proj2 (Z.ltb_lt (age / 60000) 1)) by lia.
  - lia.
  - lia.
  - rewrite (proj2 (Z.ltb_ge (age / 60000) 1)) by lia.
    by rewrite (proj2 (Z.ltb_lt (age / 60000) 60)) by lia.
  - lia.
  - lia.
  - rewrite (proj2 (Z.ltb_ge (age / 60000) 1)) by lia.
    rewrite (proj2 (Z.ltb_ge (age / 60000) 60)) by lia.
    by rewrite (proj2 (Z.ltb_lt (age / 3600000) 24)) by lia.
  - lia.
  - lia.
  - rewrite (proj2 (Z.ltb_ge (age / 60000) 1)) by lia.
    rewrite (proj2 (Z.ltb_ge (age / 60000) 60)) by lia.
    rewrite (proj2 (Z.ltb_ge (age / 3600000) 24)) by lia.
    by rewrite (proj2 (Z.ltb_lt (age / 86400000) 7)) by lia.
  - intros Hage.
    rewrite (proj2 (Z.ltb_ge (age / 60000) 1)) by lia.
    rewrite (proj2 (Z.ltb_ge (age / 60000) 60)) by lia.
    rewrite (proj2 (Z.ltb_ge (age / 3600000) 24)) by lia.
    by rewrite (proj2 (Z.ltb_ge (age / 86400000) 7)) by lia.
Qed.

(** Ninety minutes ago, and one second short of a day ago. *)
Lemma formatRelativeTime_ranges_witness :
  formatRelativeTime 10000000 (Some 4600000) "Jan 1, 2025" = "1h ago" /\
  formatRelativeTime 86399000 (Some 0) "Jan 1, 2025" = "23h ago".
Proof.
  split.
  - destruct (formatRelativeTime_ranges 10000000 4600000 "Jan 1, 2025")
      as (_ & _ & H & _).
    destruct H as [_ ->]; [lia|]. by_evaluation.
  - destruct (formatRelativeTime_ranges 86399000 0 "Jan 1, 2025")
      as (_ & _ & H & _).
    destruct H as [_ ->]; [lia|]. by_evaluation.
Defined.


(** ** A negative price *)

(** X18.  The schema puts no CHECK on swaps.total_credits.  Take a swap in
    progress with a negative price between two distinct profiles whose
    balances and counters are not NULL, called by its teacher or its
    learner, where the learner's balance raised by the amount and the two
    incremented counters still fit an INTEGER.  The balance check passes
    and the transfer runs backwards: when the teacher holds at least the
    amount, the teacher's balance goes down by it and the learner's goes up
    by it, the swap is completed and the payment row carries the negative
    amount; when the teacher holds less, the call fails with the engine's
    message for the violated CHECK (credits >= 0) and changes nothing. *)
Theorem negative_price_pays_the_learner (a : N) (now : Z) (k : N) (db : DB)
    (s : Swap) (pt pl : Profile) (ct cl nt nl : Z) :
  db_ok db ->
  swaps db !! k = Some s ->
  status s = Some in_progress ->
  a = teacher_id s \/ a = learner_id s ->
  teacher_id s <> learner_id s ->
  total_credits s < 0 ->
  profiles db !! teacher_id s = Some pt ->
  profiles db !! learner_id s = Some pl ->
  credits pt = Some ct ->
  skills_taught pt = Some nt ->
  credits pl = Some cl ->
  skills_learned pl = Some nl ->
  cl - total_credits s <= int4_max ->
  nt + 1 <= int4_max ->
  nl + 1 <= int4_max ->
  (- total_credits s <= ct ->
   exists db',
     handle_swap_completion (Some a) now k db = (db', swap_completed) /\
     profiles db' !! teacher_id s ≫= credits
       = Some (ct - - total_credits s) /\
     profiles db' !! learner_id s ≫= credits
       = Some (cl + - total_credits s) /\
     swaps db' !! k ≫= status = Some completed /\
     transactions db' = transactions db ++ [payment k s now]) /\
  (ct < - total_credits s ->
   handle_swap_completion (Some a) now k db
     = (db, failure (SQLERRM (check_violation "profiles"
                                "profiles_credits_check")))).
Proof.
  intros [Hps Hss] Hs Hst Ha Hne Hc Ht Hl Hct Hnt Hcl Hnl Hlmax Htaught
    Hlearned.
  pose proof (proj1 (profile_ok_spec _) (Hps _ _ Ht)) as (Hct0 & Htt & _).
  pose proof (proj1 (profile_ok_spec _) (Hps _ _ Hl)) as (Hcl0 & _ & Hll).
  pose proof (proj1 (swap_ok_spec _ _) (Hss _ _ Hs)) as (_ & _ & Hcr).
  specialize (Hct0 _ Hct). specialize (Htt _ Hnt).
  specialize (Hcl0 _ Hcl). specialize (Hll _ Hnl).
  split.
  - intros Hcover. eexists. split.
    + apply (handle_swap_completion_runs a now k db s pt pl ct cl nt nl);
        auto; int4_lia.
    + simpl. rewrite lookup_insert_eq, lookup_insert_ne, !lookup_insert_eq
        by done.
      simpl. repeat split; f_equal; lia.
  - intros Hshort. unfold handle_swap_completion. rewrite Hs, Hst.
    rewrite (proj2 (status_test_spec _)) by auto.
    rewrite authorized_participant by done.
    unfold transfer_credits. rewrite Hl; simpl. rewrite Hcl; simpl.
    replace (cl <? total_credits s) with false
      by (symmetry; apply Z.ltb_ge; lia).
    rewrite (update_profiles_run _ _ _ pl
               (set_credits (Some (cl - total_credits s)) pl));
      [|done
       |unfold debit_learner; by rewrite Hcl, sql_sub_in_range by int4_lia
       |simpl; intros ? [= <-]; lia].
    simpl. unfold update_profiles at 1. simpl.
    rewrite lookup_insert_ne, Ht by done.
    unfold credit_teacher. rewrite Hct, Hnt.
    rewrite !sql_add_in_range by int4_lia. simpl.
    unfold profiles_check. simpl.
    by rewrite (proj2 (Z.leb_gt 0 (ct + total_credits s))) by lia.
Qed.

(** A swap priced at -10 between a teacher at 50 and a learner at 20. *)
Lemma negative_price_pays_the_learner_witness :
  let db := sample_db 50 20 (-10) in_progress in
  exists db',
    handle_swap_completion (Some 2%N) 5 7%N db = (db', swap_completed) /\
    profiles db' !! 1%N ≫= credits = Some 40 /\
    profiles db' !! 2%N ≫= credits = Some 30.
Proof.
  intros db.
  destruct (negative_price_pays_the_learner 2%N 5 7%N db
              (mkSwap 9%N 1%N 2%N (Some in_progress) 2 (-10) 0 0)
              (sample_profile "teacher@example.org" 50)
              (sample_profile "learner@example.org" 20) 50 20 0 0)
    as [H _];
    [db_ok_by_evaluation|by_evaluation|by_evaluation|right; by_evaluation
    |by_evaluation|by_evaluation|by_evaluation|by_evaluation|by_evaluation
    |by_evaluation|by_evaluation|by_evaluation|by_evaluation|by_evaluation
    |by_evaluation|].
  destruct H as (db' & Hrun & Ht & Hl & _); [by_evaluation|].
  exists db'. by repeat split.
Defined.

(** ** Conservation of credits where every balance is known *)

Lemma update_profiles_balances_known assign k db db' :
  (forall p p', is_Some (credits p) -> assign p = ok p' ->
                is_Some (credits p')) ->
  balances_known db ->
  update_profiles assign k db = ok db' ->
  balances_known db'.
Proof.
  intros Hassign Hb
    (_ & _ & [[_ Heq]|(p & p' & Hp & Hp' & _ & Heq)])%update_profiles_ok;
    unfold balances_known; rewrite Heq; [done|].
  apply map_Forall_insert_2; [|done].
  eapply Hassign; [|done]. by apply (Hb k p).
Qed.

Lemma debit_learner_known c p p' :
  is_Some (credits p) -> debit_learner c p = ok p' -> is_Some (credits p').
Proof. intros Hc [-> _]%debit_learner_ok. simpl. by apply fmap_is_Some. Qed.

Lemma credit_teacher_known c p p' :
  is_Some (credits p) -> credit_teacher c p = ok p' -> is_Some (credits p').
Proof. intros Hc (-> & _)%credit_teacher_ok. simpl. by apply fmap_is_Some. Qed.

Lemma count_learned_known p p' :
  is_Some (credits p) -> count_learned p = ok p' -> is_Some (credits p').
Proof. by intros Hc [-> _]%count_learned_ok. Qed.

(** No call turns a balance into NULL. *)
Lemma handle_swap_completion_balances_known uid now k db :
  balances_known db ->
  balances_known (fst (handle_swap_completion uid now k db)).
Proof.
  intros Hb.
  destruct (handle_swap_completion_cases uid now k db)
    as [[_ ->]|[_ (s & Hs & _ & Ht)]]; [done|].
  apply transfer_credits_ok in Ht
    as [[? _]|[_ (db1 & db2 & db3 & H1 & H2 & H3 & ->)]]; [discriminate|].
  change (balances_known db3).
  eapply update_profiles_balances_known; [apply count_learned_known| |done].
  eapply update_profiles_balances_known;
    [apply credit_teacher_known| |done].
  eapply update_profiles_balances_known;
    [apply debit_learner_known|done|done].
Qed.

(** Where no balance is NULL, a call does not change the sum of the
    balances. *)
Lemma handle_swap_completion_sum uid now k db :
  db_ok db -> balances_known db ->
  sum_credits (fst (handle_swap_completion uid now k db)) = sum_credits db.
Proof.
  intros [Hps Hss] Hb.
  destruct (handle_swap_completion_cases uid now k db)
    as [[_ ->]|[_ (s & Hs & _ & Ht)]]; [done|].
  apply transfer_credits_ok in Ht
    as [[? _]|[_ (db1 & db2 & db3 & H1 & H2 & H3 & ->)]]; [discriminate|].
  pose proof (proj1 (swap_ok_spec _ _) (Hss k s Hs))
    as (Hteacher & Hlearner & _).
  assert (balances_known db1) as Hb1.
  { eapply update_profiles_balances_known;
      [apply debit_learner_known|done|done]. }
  change (sum_credits db3 = sum_credits db).
  assert (sum_credits db1 = sum_credits db + - total_credits s) as E1.
  { eapply update_profiles_sum; [|exact Hlearner|exact H1].
    intros p p' Hp [-> _]%debit_learner_ok.
    destruct (Hb _ _ Hp) as [x Hx]. simpl. rewrite Hx. simpl. lia. }
  assert (sum_credits db2 = sum_credits db1 + total_credits s) as E2.
  { eapply update_profiles_sum; [| |exact H2].
    - intros p p' Hp (-> & _)%credit_teacher_ok.
      destruct (Hb1 _ _ Hp) as [x Hx]. simpl. by rewrite Hx.
    - by eapply update_profiles_is_Some. }
  assert (sum_credits db3 = sum_credits db2 + 0) as E3.
  { eapply update_profiles_sum; [| |exact H3].
    - intros p p' _ [-> _]%count_learned_ok. simpl. lia.
    - eapply update_profiles_is_Some; [exact H2|].
      by eapply update_profiles_is_Some. }
  lia.
Qed.

(** X19.  Conservation where every balance is known.  On a database that
    satisfies the schema's constraints and in which no profile has a NULL
    balance, any sequence of calls of handle_swap_completion, by any
    callers on any swaps, successful or not, leaves the sum of all credit
    balances as it was, and leaves no balance NULL: a settlement debits the
    learner and credits the teacher by the same amount, and nothing else in
    a call writes a balance. *)
Theorem settlement_conserves_known_balances
    (calls : list (option N * Z * N)) (db : DB) :
  db_ok db ->
  balances_known db ->
  sum_credits (settle_all calls db) = sum_credits db /\
  balances_known (settle_all calls db).
Proof.
  revert db. induction calls as [|[[uid now] k] rest IH]; intros db Hok Hb.
  - by split.
  - simpl.
    destruct (IH (fst (handle_swap_completion uid now k db))) as [Hsum Hb'].
    + by apply handle_swap_completion_db_ok.
    + by apply handle_swap_completion_balances_known.
    + split; [|done]. rewrite Hsum. by apply handle_swap_completion_sum.
Qed.

(** Two swaps between the same pair, settled one after the other, with a
    refused call in between: 70 credits before, 70 after. *)
Lemma settlement_conserves_known_balances_witness :
  let db :=
    mkDB (<[1%N := sample_profile "teacher@example.org" 50]>
            (<[2%N := sample_profile "learner@example.org" 20]> ∅))
         (<[7%N := mkSwap 9%N 1%N 2%N (Some in_progress) 2 10 0 0]>
            (<[8%N := mkSwap 9%N 2%N 1%N (Some in_progress) 1 25 0 0]> ∅))
         [] in
  let calls := [(Some 2%N, 5, 7%N); (Some 3%N, 6, 8%N); (Some 1%N, 7, 8%N)] in
  sum_credits (settle_all calls db) = 70 /\
  profiles (settle_all calls db) !! 1%N ≫= credits = Some 35.
Proof.
  intros db calls. split; [|by_evaluation].
  rewrite (proj1 (settlement_conserves_known_balances calls db
                    ltac:(db_ok_by_evaluation) ltac:(db_ok_by_evaluation))).
  by_evaluation.
Defined.

(** ** Order of the checks for a caller with an identity *)

(** X20.  For a call by an authenticated user on a swap whose status is
    not NULL, the checks are made in a fixed order and the first that fails
    decides the result: an unknown swap gives 'Swap not found'; a known
    swap whose status is one of the five values other than in_progress
    gives 'Swap is not in progress', whoever calls; a swap in progress
    called by somebody who is neither its teacher nor its learner gives
    'Unauthorized'; a swap in progress called by a participant whose
    learner holds a balance below the price gives 'Insufficient credits';
    each of them leaves the database unchanged.  And after a successful
    call the swap is completed with exactly one more ledger row for it, and
    a further call on the same swap in that state, by anybody at any time,
    gives 'Swap is not in progress' and changes nothing. *)
Theorem settle_checks_in_order (uid : option N) (a : N) (now : Z) (k : N)
    (db : DB) :
  (swaps db !! k = None ->
   handle_swap_completion uid now k db = (db, failure "Swap not found")) /\
  (forall s st, swaps db !! k = Some s -> status s = Some st ->
   st <> in_progress ->
   handle_swap_completion uid now k db
     = (db, failure "Swap is not in progress")) /\
  (forall s, swaps db !! k = Some s -> status s = Some in_progress ->
   a <> teacher_id s -> a <> learner_id s ->
   handle_swap_completion (Some a) now k db = (db, failure "Unauthorized")) /\
  (forall s pl cl, swaps db !! k = Some s -> status s = Some in_progress ->
   a = teacher_id s \/ a = learner_id s ->
   profiles db !! learner_id s = Some pl ->
   credits pl = Some cl ->
   cl < total_credits s ->
   handle_swap_completion (Some a) now k db
     = (db, failure "Insufficient credits")) /\
  (forall uid' now',
   succeeded (snd (handle_swap_completion uid now k db)) = true ->
   let db1 := fst (handle_swap_completion uid now k db) in
   swaps db1 !! k ≫= status = Some completed /\
   (exists s, swaps db !! k = Some s /\
              payments_for k db1 = payments_for k db ++ [payment k s now]) /\
   handle_swap_completion uid' now' k db1
     = (db1, failure "Swap is not in progress")).
Proof.
  repeat split.
  - intros Hs. unfold handle_swap_completion. by rewrite Hs.
  - intros s st Hs Hst Hne. unfold handle_swap_completion. rewrite Hs, Hst.
    by rewrite status_test_stops.
  - intros s Hs Hst Hat Hal. unfold handle_swap_completion. rewrite Hs.
    rewrite (proj2 (status_test_spec _)) by auto.
    by rewrite unauthorized_stranger.
  - intros s pl cl Hs Hst Ha Hl Hcl Hbal. unfold handle_swap_completion.
    rewrite Hs. rewrite (proj2 (status_test_spec _)) by auto.
    rewrite authorized_participant by done.
    unfold transfer_credits. rewrite Hl. simpl. rewrite Hcl. simpl.
    apply Z.ltb_lt in Hbal. by rewrite Hbal.
  - apply handle_swap_completion_success in H as (s & Hs & _ & Ht).
    apply transfer_credits_completed in Ht as [-> _].
    by rewrite lookup_alter_eq, Hs.
  - apply handle_swap_completion_success in H as (s & Hs & _ & Ht).
    exists s. split; [done|].
    apply transfer_credits_completed in Ht as [_ Htx].
    unfold payments_for. rewrite Htx, filter_app. f_equal.
    rewrite filter_cons_True by done. by rewrite filter_nil.
  - apply handle_swap_completion_success in H as (s & Hs & _ & Ht).
    apply transfer_credits_completed in Ht as [Hsw _].
    unfold handle_swap_completion at 1. rewrite Hsw, lookup_alter_eq, Hs.
    reflexivity.
Qed.

(** The first scenario's failure, a stranger's call, and a second call
    after the second scenario's success. *)
Lemma settle_checks_in_order_witness :
  let db := sample_db 50 3 10 in_progress in
  let db' := sample_db 50 20 10 in_progress in
  handle_swap_completion (Some 1%N) 5 7%N db
    = (db, failure "Insufficient credits") /\
  handle_swap_completion (Some 3%N) 5 7%N db = (db, failure "Unauthorized") /\
  let db1 := fst (handle_swap_completion (Some 2%N) 5 7%N db') in
  handle_swap_completion (Some 1%N) 6 7%N db1
    = (db1, failure "Swap is not in progress").
Proof.
  intros db db'.
  destruct (settle_checks_in_order (Some 1%N) 1%N 5 7%N db)
    as (_ & _ & _ & H4 & _).
  destruct (settle_checks_in_order (Some 3%N) 3%N 5 7%N db)
    as (_ & _ & H3 & _).
  destruct (settle_checks_in_order (Some 2%N) 2%N 5 7%N db')
    as (_ & _ & _ & _ & H5).
  split; [|split].
  - apply (H4 (mkSwap 9%N 1%N 2%N (Some in_progress) 2 10 0 0)
              (sample_profile "learner@example.org" 3) 3);
      [by_evaluation|by_evaluation|left; by_evaluation|by_evaluation
      |by_evaluation|by_evaluation].
  - apply (H3 (mkSwap 9%N 1%N 2%N (Some in_progress) 2 10 0 0)); by_evaluation.
  - apply (H5 (Some 1%N) 6). by_evaluation.
Defined.
